(** * ImageIOLibrary: the bitmap transforms of [UImageIOLibraryBPLibrary]

    A shallow embedding of the pixel-buffer operations of
    [Source/ImageIOLibrary/Private/ImageIOLibraryBPLibrary.cpp]: the tone
    adjusters ([SetBitmapBrightness], [SetBitmapContrast]), the blend
    operators ([Add_Bitmap], [Multiply_Bitmap], [Divide_Bitmap]) and the
    convolution ([ApplyBitmapFilter], [GetBitmapFilter],
    [SetPixelColourChannel]).

    Integers are [Z] with the wrap-around of their C++ type written out;
    [float] and [double] are the binary32 and binary64 instances of the
    IEEE-754 specification of [SpecFloat]; a [TArray] is a list whose
    indexing is checked, so that a read outside the array is a failure
    ([None]) of the operation that performs it. *)

From Stdlib Require Import ZArith List Bool Lia.
From Stdlib Require Import Floats.SpecFloat.
Import ListNotations.
Local Open Scope Z_scope.

(** ** Failure: an out-of-range array access aborts the operation *)

Definition bind {S T : Type} (c : option S) (k : S -> option T) : option T :=
  match c with
  | Some x => k x
  | None => None
  end.

Notation "x <- c ;; k" := (bind c (fun x => k))
  (at level 61, c at next level, right associativity).

(** ** Machine integers *)

Definition INT32_MIN : Z := -2147483648.
Definition INT32_MAX : Z := 2147483647.

(** [(uint8) z]: the low byte. *)
Definition uint8 (z : Z) : Z := z mod 256.

(** [int] arithmetic: 32-bit two's complement. *)
Definition int32 (z : Z) : Z := (z + 2147483648) mod 4294967296 - 2147483648.

(** A C++ [bool] used as an [int]. *)
Definition bool_to_int (b : bool) : Z := if b then 1 else 0.

(** [for (int i = 0; i < bound; i++) body], threading the state [s]. *)
Fixpoint for_loop {S : Type} (n : nat) (i : Z) (body : Z -> S -> option S) (s : S)
  : option S :=
  match n with
  | O => Some s
  | Datatypes.S n' =>
      match body i s with
      | Some s' => for_loop n' (i + 1) body s'
      | None => None
      end
  end.

Definition for_upto {S : Type} (bound : Z) (body : Z -> S -> option S) (s : S)
  : option S :=
  for_loop (Z.to_nat bound) 0 body s.

(** ** Floating point *)

(** Round toward zero and toward minus infinity; no integer for NaN and the
    infinities. *)
Definition SFtrunc (x : spec_float) : option Z :=
  match x with
  | S754_zero _ => Some 0
  | S754_finite s m e => Some (if s then - Z.shiftl (Zpos m) e else Z.shiftl (Zpos m) e)
  | _ => None
  end.

Definition SFfloor (x : spec_float) : option Z :=
  match x with
  | S754_zero _ => Some 0
  | S754_finite s m e => Some (Z.shiftl (if s then Zneg m else Zpos m) e)
  | _ => None
  end.

(** Conversion to [int32] as the x86-64 targets of the plugin perform it
    ([cvttss2si]): a value with no [int32] image gives the "integer
    indefinite" [INT32_MIN]. *)
Definition to_int32 (o : option Z) : Z :=
  match o with
  | Some z => if (INT32_MIN <=? z) && (z <=? INT32_MAX) then z else INT32_MIN
  | None => INT32_MIN
  end.

(** A floating value stored into a [uint8]: truncation, then the low byte. *)
Definition float_to_uint8 (x : spec_float) : Z := uint8 (to_int32 (SFtrunc x)).

(** A value that is neither NaN nor an infinity. *)
Definition is_finite (x : spec_float) : bool :=
  match x with
  | S754_zero _ | S754_finite _ _ _ => true
  | _ => false
  end.

(** C++ [float]. *)
Module F32.
Definition prec : Z := 24.
Definition emax : Z := 128.
Definition t : Type := spec_float.

Definition add : t -> t -> t := SFadd prec emax.
Definition sub : t -> t -> t := SFsub prec emax.
Definition mul : t -> t -> t := SFmul prec emax.
Definition div : t -> t -> t := SFdiv prec emax.
Definition ltb : t -> t -> bool := SFltb.
Definition leb : t -> t -> bool := SFleb.
Definition geb (x y : t) : bool := SFleb y x.

(** [(float) n] for an integer [n]. *)
Definition of_int (n : Z) : t := binary_normalize prec emax n 0 false.

(** The literal [n/d] written in decimal, for [n] and [d] exact in
    binary32: the correctly rounded quotient. *)
Definition lit (n d : Z) : t := div (of_int n) (of_int d).

(** Decoding of an IEEE-754 binary32 bit pattern. *)
Definition of_bits (w : Z) : t :=
  let s := Z.testbit w 31 in
  let e := Z.land (Z.shiftr w 23) 255 in
  let f := Z.land w 8388607 in
  if e =? 0 then
    match f with
    | Zpos p => S754_finite s p (-149)
    | _ => S754_zero s
    end
  else if e =? 255 then
    (if f =? 0 then S754_infinity s else S754_nan)
  else
    match f + 8388608 with
    | Zpos p => S754_finite s p (e - 150)
    | _ => S754_nan
    end.

Definition zero : t := S754_zero false.
Definition one : t := of_int 1.
End F32.

(** C++ [double]. *)
Module F64.
Definition prec : Z := 53.
Definition emax : Z := 1024.
Definition t : Type := spec_float.

Definition add : t -> t -> t := SFadd prec emax.
Definition sub : t -> t -> t := SFsub prec emax.
Definition mul : t -> t -> t := SFmul prec emax.
Definition div : t -> t -> t := SFdiv prec emax.

Definition of_int (n : Z) : t := binary_normalize prec emax n 0 false.
Definition lit (n d : Z) : t := div (of_int n) (of_int d).

(** Widening of a [float] (exact) and narrowing to a [float] (rounded to
    nearest even). *)
Definition of_f32 (x : F32.t) : t :=
  match x with
  | S754_finite s m e => binary_round prec emax s m e
  | _ => x
  end.

Definition to_f32 (x : t) : F32.t :=
  match x with
  | S754_finite s m e => binary_round F32.prec F32.emax s m e
  | _ => x
  end.
End F64.

(** ** Engine types and helpers

    The definitions of Unreal Engine 4 that the library calls
    ([Core/Public/Math/UnrealMathUtility.h], [Core/Public/Math/Color.h],
    [Core/Private/Math/Color.cpp], [Core/Public/Containers/Array.h]). *)

Module FMath.
(** [Clamp(X, Min, Max)] is [X<Min ? Min : X<Max ? X : Max], for the order
    [lt] of the instantiated type. *)
Definition Clamp {T : Type} (lt : T -> T -> bool) (X Min Max : T) : T :=
  if lt X Min then Min else if lt X Max then X else Max.

(** [Min(A, B)] is [(A<=B) ? A : B]. *)
Definition Min (A B : Z) : Z := if A <=? B then A else B.

(** [FloorToInt(F)]: the floor, converted to [int32]. *)
Definition FloorToInt (F : F32.t) : Z := to_int32 (SFfloor F).

Definition SMALL_NUMBER : F32.t := F32.lit 1 100000000.

Definition IsNearlyZero (Value : F32.t) : bool :=
  F32.leb (SFabs Value) SMALL_NUMBER.

Definition GetRangePct (MinValue MaxValue Value : F32.t) : F32.t :=
  let Divisor := F32.sub MaxValue MinValue in
  if IsNearlyZero Divisor then
    (if F32.geb Value MaxValue then F32.one else F32.zero)
  else F32.div (F32.sub Value MinValue) Divisor.

(** [Lerp(A, B, Alpha)] is [A + Alpha * (B-A)]. *)
Definition Lerp (A B Alpha : F32.t) : F32.t :=
  F32.add A (F32.mul Alpha (F32.sub B A)).

(** [GetMappedRangeValueClamped(FVector2D(InX, InY), FVector2D(OutX, OutY), Value)]. *)
Definition GetMappedRangeValueClamped (InX InY OutX OutY Value : F32.t) : F32.t :=
  let ClampedPct := Clamp F32.ltb (GetRangePct InX InY Value) F32.zero F32.one in
  Lerp OutX OutY ClampedPct.
End FMath.

Module TArray.
Definition Num {T : Type} (a : list T) : Z := Z.of_nat (length a).

(** [a[i]], range-checked. *)
Definition get {T : Type} (a : list T) (i : Z) : option T :=
  if (0 <=? i) && (i <? Num a) then nth_error a (Z.to_nat i) else None.

Definition Add {T : Type} (a : list T) (x : T) : list T := a ++ [x].

(** [a.EmplaceAt(i, x)] inserts [x] before position [i]; [i] may be the
    end of the array and no further. *)
Definition EmplaceAt {T : Type} (a : list T) (i : Z) (x : T) : option (list T) :=
  if (0 <=? i) && (i <=? Num a)
  then Some (firstn (Z.to_nat i) a ++ x :: skipn (Z.to_nat i) a)
  else None.

(** [a.SetNumUninitialized(n)] on an empty array: [n] elements holding
    whatever the storage held, [junk] here. *)
Definition SetNumUninitialized {T : Type} (junk : T) (n : Z) : list T :=
  repeat junk (Z.to_nat n).

(** [a[i] = x], range-checked. *)
Definition set {T : Type} (a : list T) (i : Z) (x : T) : option (list T) :=
  if (0 <=? i) && (i <? Num a)
  then Some (firstn (Z.to_nat i) a ++ x :: skipn (Datatypes.S (Z.to_nat i)) a)
  else None.
End TArray.

Module FColor.
(** Four [uint8] channels. *)
Record t : Type := make { R : Z; G : Z; B : Z; A : Z }.

(** [FColor(InR, InG, InB)]: the fourth argument [InA] defaults to 255. *)
Definition rgb (InR InG InB : Z) : t := make InR InG InB 255.

(** [C += D]: each channel is [(uint8) Min((int32) C.x + (int32) D.x, 255)]. *)
Definition add_assign (C D : t) : t :=
  make (uint8 (FMath.Min (R C + R D) 255))
       (uint8 (FMath.Min (G C + G D) 255))
       (uint8 (FMath.Min (B C + B D) 255))
       (uint8 (FMath.Min (A C + A D) 255)).

(** The values a [uint8] channel can hold. *)
Definition channel_ok (c : Z) : bool := (0 <=? c) && (c <? 256).

Definition wf (p : t) : bool :=
  channel_ok (R p) && channel_ok (G p) && channel_ok (B p) && channel_ok (A p).
End FColor.

Module FLinearColor.
Record t : Type := make { R : F32.t; G : F32.t; B : F32.t; A : F32.t }.

(** [FLinearColor::sRGBToLinearTable]: the sRGB decoding of each 8-bit
    code, 256 binary32 values, listed by their bit patterns. *)
Definition sRGBToLinearBits : list Z :=
 [0x00000000; 0x399F22B4; 0x3A1F22B4; 0x3A6EB40E; 0x3A9F22B4; 0x3AC6EB61; 0x3AEEB40E; 0x3B0B3E5D;
  0x3B1F22B4; 0x3B33070A; 0x3B46EB61; 0x3B5B518E; 0x3B70F18F; 0x3B83E1C6; 0x3B8FE616; 0x3B9C87FD;
  0x3BA9C9B6; 0x3BB7AD6F; 0x3BC6354A; 0x3BD56360; 0x3BE539C1; 0x3BF5BA71; 0x3C0373B6; 0x3C0C6153;
  0x3C15A705; 0x3C1F45BE; 0x3C293E6B; 0x3C3391F7; 0x3C3E4149; 0x3C494D44; 0x3C54B6C9; 0x3C607EB4;
  0x3C6CA5DF; 0x3C792D22; 0x3C830AA9; 0x3C89AF9F; 0x3C9085DC; 0x3C978DC6; 0x3C9EC7C2; 0x3CA63433;
  0x3CADD37D; 0x3CB5A602; 0x3CBDAC21; 0x3CC5E63A; 0x3CCE54AC; 0x3CD6F7D5; 0x3CDFD010; 0x3CE8DDBA;
  0x3CF2212D; 0x3CFB9AC3; 0x3D02A56A; 0x3D0798DD; 0x3D0CA7E6; 0x3D11D2AF; 0x3D171964; 0x3D1C7C30;
  0x3D21FB3C; 0x3D2796B2; 0x3D2D4EBB; 0x3D332381; 0x3D39152B; 0x3D3F23E4; 0x3D454FD2; 0x3D4B991D;
  0x3D51FFEC; 0x3D588468; 0x3D5F26B6; 0x3D65E6FD; 0x3D6CC563; 0x3D73C20E; 0x3D7ADD24; 0x3D810B65;
  0x3D84B793; 0x3D88732E; 0x3D8C3E48; 0x3D9018F4; 0x3D940344; 0x3D97FD49; 0x3D9C0715; 0x3DA020BA;
  0x3DA44A4A; 0x3DA883D6; 0x3DACCD6F; 0x3DB12727; 0x3DB5910F; 0x3DBA0B38; 0x3DBE95B3; 0x3DC33090;
  0x3DC7DBE0; 0x3DCC97B4; 0x3DD1641D; 0x3DD6412B; 0x3DDB2EEE; 0x3DE02D76; 0x3DE53CD4; 0x3DEA5D18;
  0x3DEF8E51; 0x3DF4D090; 0x3DFA23E5; 0x3DFF885E; 0x3E027F06; 0x3E05427F; 0x3E080EA2; 0x3E0AE377;
  0x3E0DC104; 0x3E10A753; 0x3E13966A; 0x3E168E51; 0x3E198F0F; 0x3E1C98AC; 0x3E1FAB30; 0x3E22C6A1;
  0x3E25EB07; 0x3E29186A; 0x3E2C4ED0; 0x3E2F8E42; 0x3E32D6C5; 0x3E362862; 0x3E39831F; 0x3E3CE703;
  0x3E405417; 0x3E43CA60; 0x3E4749E6; 0x3E4AD2AF; 0x3E4E64C3; 0x3E520029; 0x3E55A4E7; 0x3E595305;
  0x3E5D0A89; 0x3E60CB7A; 0x3E6495DF; 0x3E6869BE; 0x3E6C471F; 0x3E702E07; 0x3E741E7E; 0x3E78188B;
  0x3E7C1C33; 0x3E8014BF; 0x3E822039; 0x3E84308B; 0x3E8645B8; 0x3E885FC3; 0x3E8A7EB0; 0x3E8CA281;
  0x3E8ECB3B; 0x3E90F8DF; 0x3E932B72; 0x3E9562F6; 0x3E979F6F; 0x3E99E0E0; 0x3E9C274C; 0x3E9E72B6;
  0x3EA0C321; 0x3EA31890; 0x3EA57307; 0x3EA7D288; 0x3EAA3716; 0x3EACA0B6; 0x3EAF0F68; 0x3EB18332;
  0x3EB3FC15; 0x3EB67A14; 0x3EB8FD34; 0x3EBB8576; 0x3EBE12DE; 0x3EC0A56E; 0x3EC33D2A; 0x3EC5DA14;
  0x3EC87C30; 0x3ECB2380; 0x3ECDD008; 0x3ED081CA; 0x3ED338C9; 0x3ED5F508; 0x3ED8B68A; 0x3EDB7D52;
  0x3EDE4963; 0x3EE11ABF; 0x3EE3F169; 0x3EE6CD65; 0x3EE9AEB5; 0x3EEC955B; 0x3EEF815C; 0x3EF272B8;
  0x3EF56974; 0x3EF86593; 0x3EFB6716; 0x3EFE6E00; 0x3F00BD2B; 0x3F02460C; 0x3F03D1A5; 0x3F055FF7;
  0x3F06F104; 0x3F0884CD; 0x3F0A1B54; 0x3F0BB499; 0x3F0D509F; 0x3F0EEF65; 0x3F1090EF; 0x3F12353D;
  0x3F13DC50; 0x3F15862A; 0x3F1732CC; 0x3F18E237; 0x3F1A946E; 0x3F1C4970; 0x3F1E0140; 0x3F1FBBDE;
  0x3F21794D; 0x3F23398C; 0x3F24FC9F; 0x3F26C285; 0x3F288B41; 0x3F2A56D2; 0x3F2C253C; 0x3F2DF67F;
  0x3F2FCA9C; 0x3F31A194; 0x3F337B6A; 0x3F35581D; 0x3F3737B0; 0x3F391A24; 0x3F3AFF7A; 0x3F3CE7B2;
  0x3F3ED2CF; 0x3F40C0D2; 0x3F42B1BC; 0x3F44A58E; 0x3F469C49; 0x3F4895EF; 0x3F4A9280; 0x3F4C91FF;
  0x3F4E946C; 0x3F5099C9; 0x3F52A216; 0x3F54AD56; 0x3F56BB88; 0x3F58CCAF; 0x3F5AE0CC; 0x3F5CF7DF;
  0x3F5F11EA; 0x3F612EEF; 0x3F634EEE; 0x3F6571E9; 0x3F6797E0; 0x3F69C0D5; 0x3F6BECCA; 0x3F6E1BBF;
  0x3F704DB5; 0x3F7282AE; 0x3F74BAAB; 0x3F76F5AE; 0x3F7933B6; 0x3F7B74C6; 0x3F7DB8DE; 0x3F800000].

Definition sRGBToLinearTable (c : Z) : F32.t :=
  F32.of_bits (nth (Z.to_nat c) sRGBToLinearBits 0).

Definition OneOver255 : F32.t := F32.div (F32.of_int 1) (F32.of_int 255).

(** [FLinearColor(const FColor&)], the implicit conversion: the colour
    channels are decoded through the table, alpha is scaled. *)
Definition of_FColor (Color : FColor.t) : t :=
  make (sRGBToLinearTable (FColor.R Color))
       (sRGBToLinearTable (FColor.G Color))
       (sRGBToLinearTable (FColor.B Color))
       (F32.mul (F32.of_int (FColor.A Color)) OneOver255).

Definition unit_clamp (x : F32.t) : F32.t := FMath.Clamp F32.ltb x F32.zero F32.one.

(** The literal [255.999f]. *)
Definition quantise_scale : F32.t := F32.lit 255999 1000.

Definition quantise (x : F32.t) : Z :=
  uint8 (FMath.FloorToInt (F32.mul (unit_clamp x) quantise_scale)).

(** [ToFColor(false)]: each channel is clamped to [0,1] and quantised as
    [FloorToInt(x * 255.999f)], with no sRGB encoding. *)
Definition ToFColor (c : t) : FColor.t :=
  FColor.make (quantise (R c)) (quantise (G c)) (quantise (B c)) (quantise (A c)).
End FLinearColor.

(** ** The library's types ([ImageIOLibraryBPLibrary.h]) *)

Module EFilterColourChannel.
Inductive t : Type := RGB | RGBA | R | G | B | A | Greyscale.

Definition eqb (c d : t) : bool :=
  match c, d with
  | RGB, RGB | RGBA, RGBA | R, R | G, G | B, B | A, A | Greyscale, Greyscale => true
  | _, _ => false
  end.
End EFilterColourChannel.

Module FImageSize.
Record t : Type := make { X : Z; Y : Z }.
End FImageSize.

Module FBitmapFilter.
Record t : Type := make {
  Size : FImageSize.t;
  Filter : list F32.t;
  Factor : F32.t;
  Bias : F32.t;
  ColourChannel : EFilterColourChannel.t
}.

End FBitmapFilter.

Inductive EBitmapFilterType : Type :=
  Identity | Sharpen | BoxBlur | Gaussian1 | Gaussian2 | EdgeDetection.

(** ** Tone adjusters *)

Definition SetBitmapContrast (Bitmap : list FColor.t) (Contrast : F32.t) : list FColor.t :=
  let tempContrast :=
    FMath.GetMappedRangeValueClamped (F32.of_int 0) (F32.of_int 2)
                                     (F32.of_int (-255)) (F32.of_int 255) Contrast in
  let factor :=
    F64.to_f32
      (F64.div (F64.mul (F64.of_int 259) (F64.add (F64.of_f32 tempContrast) (F64.of_int 255)))
               (F64.mul (F64.of_int 255) (F64.sub (F64.of_int 259) (F64.of_f32 tempContrast)))) in
  let channel (c : Z) : Z :=
    float_to_uint8
      (FMath.Clamp F32.ltb (F32.add (F32.mul factor (F32.of_int (c - 128))) (F32.of_int 128))
                   F32.zero (F32.of_int 255)) in
  map (fun pixel =>
         FColor.rgb (channel (FColor.R pixel)) (channel (FColor.G pixel))
                    (channel (FColor.B pixel)))
      Bitmap.

Definition SetBitmapBrightness (Bitmap : list FColor.t) (Brightness : F32.t) : list FColor.t :=
  let tempBrightness :=
    FMath.GetMappedRangeValueClamped (F32.of_int 0) (F32.of_int 2)
                                     (F32.of_int (-255)) (F32.of_int 255) Brightness in
  let channel (c : Z) : Z :=
    float_to_uint8
      (FMath.Clamp F32.ltb (F32.add (F32.of_int c) tempBrightness)
                   F32.zero (F32.of_int 255)) in
  map (fun pixel =>
         FColor.rgb (channel (FColor.R pixel)) (channel (FColor.G pixel))
                    (channel (FColor.B pixel)))
      Bitmap.

(** ** Blend operators *)

(** The test [BitmapA[i].A == BitmapB[i].A == 0] of [Add_Bitmap]: [==]
    associates to the left, so the [bool] [a.A == b.A] is compared with 0. *)
Definition Add_Bitmap_special_case (a b : FColor.t) : bool :=
  bool_to_int (FColor.A a =? FColor.A b) =? 0.

(** One iteration of the loop of [Add_Bitmap]. *)
Definition Add_Bitmap_pixel (a b : FColor.t) : FColor.t :=
  if Add_Bitmap_special_case a b
  then FColor.make 0 0 0 0
  else FColor.add_assign a b.

Definition Add_Bitmap (BitmapA BitmapB : list FColor.t) : option (list FColor.t) :=
  if (0 <? TArray.Num BitmapA) && (0 <? TArray.Num BitmapB) then
    let minIndex :=
      if TArray.Num BitmapA <? TArray.Num BitmapB
      then TArray.Num BitmapA else TArray.Num BitmapB in
    for_upto minIndex
      (fun i OutBitmap =>
         a <- TArray.get BitmapA i ;;
         b <- TArray.get BitmapB i ;;
         Some (TArray.Add OutBitmap (Add_Bitmap_pixel a b)))
      []
  else Some [].

(** The local [pixel] of [Multiply_Bitmap] before [ToFColor]. *)
Definition Multiply_Bitmap_pixel (a b : FColor.t) : FLinearColor.t :=
  let A := FLinearColor.of_FColor a in
  let B := FLinearColor.of_FColor b in
  FLinearColor.make
    (FMath.Clamp F32.ltb (F32.mul (FLinearColor.R A) (FLinearColor.R B)) F32.zero F32.one)
    (FMath.Clamp F32.ltb (F32.mul (FLinearColor.G A) (FLinearColor.G B)) F32.zero F32.one)
    (FMath.Clamp F32.ltb (F32.mul (FLinearColor.B A) (FLinearColor.B B)) F32.zero F32.one)
    (FMath.Clamp F32.ltb (F32.mul (FLinearColor.A A) (FLinearColor.A B)) F32.zero F32.one).

Definition Multiply_Bitmap (BitmapA BitmapB : list FColor.t) : option (list FColor.t) :=
  if (0 <? TArray.Num BitmapA) && (0 <? TArray.Num BitmapB) then
    let minIndex :=
      if TArray.Num BitmapA <? TArray.Num BitmapB
      then TArray.Num BitmapA else TArray.Num BitmapB in
    for_upto minIndex
      (fun i OutBitmap =>
         a <- TArray.get BitmapA i ;;
         b <- TArray.get BitmapB i ;;
         Some (TArray.Add OutBitmap (FLinearColor.ToFColor (Multiply_Bitmap_pixel a b))))
      []
  else Some [].

(** The local [pixel] of [Divide_Bitmap] before [ToFColor]. *)
Definition Divide_Bitmap_pixel (a b : FColor.t) : FLinearColor.t :=
  let A := FLinearColor.of_FColor a in
  let B := FLinearColor.of_FColor b in
  FLinearColor.make
    (FMath.Clamp F32.ltb (F32.div (FLinearColor.R A) (FLinearColor.R B)) F32.zero F32.one)
    (FMath.Clamp F32.ltb (F32.div (FLinearColor.G A) (FLinearColor.G B)) F32.zero F32.one)
    (FMath.Clamp F32.ltb (F32.div (FLinearColor.B A) (FLinearColor.B B)) F32.zero F32.one)
    (FMath.Clamp F32.ltb (F32.div (FLinearColor.A A) (FLinearColor.A B)) F32.zero F32.one).

Definition Divide_Bitmap (BitmapA BitmapB : list FColor.t) : option (list FColor.t) :=
  if (0 <? TArray.Num BitmapA) && (0 <? TArray.Num BitmapB) then
    let minIndex :=
      if TArray.Num BitmapA <? TArray.Num BitmapB
      then TArray.Num BitmapA else TArray.Num BitmapB in
    for_upto minIndex
      (fun i OutBitmap =>
         a <- TArray.get BitmapA i ;;
         b <- TArray.get BitmapB i ;;
         Some (TArray.Add OutBitmap (FLinearColor.ToFColor (Divide_Bitmap_pixel a b))))
      []
  else Some [].

(** ** Filters *)

Definition SetPixelColourChannel (Pixel : FColor.t) (ColourChannel : EFilterColourChannel.t)
  : FColor.t :=
  match ColourChannel with
  | EFilterColourChannel.RGB =>
      FColor.make (FColor.R Pixel) (FColor.G Pixel) (FColor.B Pixel) 255
  | EFilterColourChannel.RGBA =>
      FColor.make (FColor.R Pixel) (FColor.G Pixel) (FColor.B Pixel) (FColor.A Pixel)
  | EFilterColourChannel.R => FColor.make (FColor.R Pixel) 0 0 255
  | EFilterColourChannel.G => FColor.make 0 (FColor.G Pixel) 0 255
  | EFilterColourChannel.B => FColor.make 0 0 (FColor.B Pixel) 255
  | EFilterColourChannel.A =>
      FColor.make (FColor.A Pixel) (FColor.A Pixel) (FColor.A Pixel) 0
  | EFilterColourChannel.Greyscale =>
      let greyscaledPixel :=
        float_to_uint8
          (F64.add (F64.add (F64.mul (F64.of_int (FColor.R Pixel)) (F64.lit 2989 10000))
                            (F64.mul (F64.of_int (FColor.G Pixel)) (F64.lit 5870 10000)))
                   (F64.mul (F64.of_int (FColor.B Pixel)) (F64.lit 1140 10000))) in
      FColor.make greyscaledPixel greyscaledPixel greyscaledPixel 255
  end.

Definition GetBitmapFilter (BitmapFilter : EBitmapFilterType) (OverrideColourChannel : bool)
  (ColourChannelOverride : EFilterColourChannel.t) : FBitmapFilter.t :=
  let channel (d : EFilterColourChannel.t) :=
    if OverrideColourChannel then ColourChannelOverride else d in
  match BitmapFilter with
  | Identity =>
      FBitmapFilter.make (FImageSize.make 3 3)
        (map F32.of_int [0; 0; 0; 0; 1; 0; 0; 0; 0])
        F32.one F32.zero (channel EFilterColourChannel.RGBA)
  | BoxBlur =>
      FBitmapFilter.make (FImageSize.make 3 3)
        (map F32.of_int [1; 1; 1; 1; 1; 1; 1; 1; 1])
        (F32.lit 11111111 100000000) F32.zero (channel EFilterColourChannel.RGBA)
  | Gaussian1 =>
      FBitmapFilter.make (FImageSize.make 3 3)
        (map F32.of_int [1; 2; 1; 2; 4; 2; 1; 2; 1])
        (F32.lit 625 10000) F32.zero (channel EFilterColourChannel.RGBA)
  | Gaussian2 =>
      FBitmapFilter.make (FImageSize.make 5 5)
        (map F32.of_int [1; 4; 6; 4; 1; 4; 16; 24; 16; 4; 6; 24; 36; 24; 6;
                         4; 16; 24; 16; 4; 1; 4; 6; 4; 1])
        (F32.lit 390625 100000000) F32.zero (channel EFilterColourChannel.RGBA)
  | Sharpen =>
      FBitmapFilter.make (FImageSize.make 3 3)
        (map F32.of_int [0; -1; 0; -1; 5; -1; 0; -1; 0])
        F32.one F32.zero (channel EFilterColourChannel.RGBA)
  | EdgeDetection =>
      FBitmapFilter.make (FImageSize.make 3 3)
        (map F32.of_int [-1; -1; -1; -1; 8; -1; -1; -1; -1])
        F32.one F32.zero (channel EFilterColourChannel.Greyscale)
  end.

(** [temp += c * (w * Filter.Factor) + Filter.Bias] on a [uint8] accumulator
    [temp]: the sum is formed in [float] and stored back as a [uint8]. *)
Definition accumulate (temp c : Z) (w Factor Bias : F32.t) : Z :=
  float_to_uint8
    (F32.add (F32.of_int temp)
             (F32.add (F32.mul (F32.of_int c) (F32.mul w Factor)) Bias)).

(** The flat index of the working pixel [(X, Y)]. *)
Definition pixelIndex (Bitmap : list FColor.t) (Size : FImageSize.t) (X Y : Z) : Z :=
  FMath.Clamp Z.ltb (int32 (int32 (Y * FImageSize.X Size) + X)) 0 (TArray.Num Bitmap - 1).

(** The body of the two outer loops of [ApplyBitmapFilter] up to the store:
    the colour computed for the working pixel [(X, Y)]. *)
Definition ApplyBitmapFilter_pixel (Bitmap : list FColor.t) (Size : FImageSize.t)
  (Filter : FBitmapFilter.t) (X Y : Z) : option FColor.t :=
  let filterWidth := FImageSize.X (FBitmapFilter.Size Filter) in
  let filterHeight := FImageSize.Y (FBitmapFilter.Size Filter) in
  let filter := FBitmapFilter.Filter Filter in
  tempAlpha <-
    (if EFilterColourChannel.eqb (FBitmapFilter.ColourChannel Filter) EFilterColourChannel.RGBA
     then p <- TArray.get Bitmap (pixelIndex Bitmap Size X Y) ;; Some (FColor.A p)
     else Some 255) ;;
  temp <-
    for_upto filterHeight
      (fun filterY acc =>
         for_upto filterWidth
           (fun filterX '(tempRed, tempGreen, tempBlue) =>
              let nPixelX :=
                int32 (int32 (X + filterX)
                       - FMath.FloorToInt (F32.of_int (Z.quot filterWidth 2))) in
              let nPixelY :=
                int32 (int32 (Y + filterY)
                       - FMath.FloorToInt (F32.of_int (Z.quot filterHeight 2))) in
              let nPixelIndex :=
                FMath.Clamp Z.ltb (int32 (int32 (nPixelY * FImageSize.X Size) + nPixelX))
                            0 (TArray.Num Bitmap - 1) in
              let nFilterIndex :=
                FMath.Clamp Z.ltb (int32 (int32 (filterY * filterWidth) + filterX))
                            0 (TArray.Num filter - 1) in
              n <- TArray.get Bitmap nPixelIndex ;;
              w <- TArray.get filter nFilterIndex ;;
              Some (accumulate tempRed (FColor.R n) w
                               (FBitmapFilter.Factor Filter) (FBitmapFilter.Bias Filter),
                    accumulate tempGreen (FColor.G n) w
                               (FBitmapFilter.Factor Filter) (FBitmapFilter.Bias Filter),
                    accumulate tempBlue (FColor.B n) w
                               (FBitmapFilter.Factor Filter) (FBitmapFilter.Bias Filter)))
           acc)
      (0, 0, 0) ;;
  let '(tempRed, tempGreen, tempBlue) := temp in
  Some (SetPixelColourChannel (FColor.make tempRed tempGreen tempBlue tempAlpha)
                              (FBitmapFilter.ColourChannel Filter)).

Definition ApplyBitmapFilter (Bitmap : list FColor.t) (Size : FImageSize.t)
  (Filter : FBitmapFilter.t) : option (list FColor.t) :=
  for_upto (FImageSize.Y Size)
    (fun Y OutBitmap =>
       for_upto (FImageSize.X Size)
         (fun X OutBitmap =>
            c <- ApplyBitmapFilter_pixel Bitmap Size Filter X Y ;;
            TArray.EmplaceAt OutBitmap (pixelIndex Bitmap Size X Y) c)
         OutBitmap)
    [].

(** ** Blends with a constant colour *)

(** The buffer that [Add_ColorBitmap], [Multiply_ColorBitmap] and
    [Divide_ColorBitmap] each build: as long as the bitmap, allocated
    uninitialised and then filled with [Tint.ToFColor(false)]. *)
Definition TintBitmap (junk : FColor.t) (BitmapA : list FColor.t) (Tint : FLinearColor.t)
  : option (list FColor.t) :=
  let TintBitmap0 := TArray.SetNumUninitialized junk (TArray.Num BitmapA) in
  for_upto (TArray.Num TintBitmap0)
    (fun i TintBitmap => TArray.set TintBitmap i (FLinearColor.ToFColor Tint))
    TintBitmap0.

Definition Add_ColorBitmap (junk : FColor.t) (BitmapA : list FColor.t) (Tint : FLinearColor.t)
  : option (list FColor.t) :=
  if 0 <? TArray.Num BitmapA then
    TintBitmap <- TintBitmap junk BitmapA Tint ;;
    Add_Bitmap BitmapA TintBitmap
  else Some [].

Definition Multiply_ColorBitmap (junk : FColor.t) (BitmapA : list FColor.t)
  (Tint : FLinearColor.t) : option (list FColor.t) :=
  if 0 <? TArray.Num BitmapA then
    TintBitmap <- TintBitmap junk BitmapA Tint ;;
    Multiply_Bitmap BitmapA TintBitmap
  else Some [].

Definition Divide_ColorBitmap (junk : FColor.t) (BitmapA : list FColor.t)
  (Tint : FLinearColor.t) : option (list FColor.t) :=
  if 0 <? TArray.Num BitmapA then
    TintBitmap <- TintBitmap junk BitmapA Tint ;;
    Divide_Bitmap BitmapA TintBitmap
  else Some [].

(** ** Image formats *)

(** The engine's [EImageFormat] and the library's [EImageIOFormat]. *)
Module EImageFormat.
Inductive t : Type := Invalid | PNG | JPEG | GrayscaleJPEG | BMP | ICO | EXR | ICNS.
End EImageFormat.

Module EImageIOFormat.
Inductive t : Type := Invalid | PNG | JPEG | GrayscaleJPEG | BMP | ICO | EXR | ICNS.
End EImageIOFormat.

Definition EImageFormatToEImageIOFormat (ImageFormat : EImageFormat.t) : EImageIOFormat.t :=
  match ImageFormat with
  | EImageFormat.Invalid => EImageIOFormat.Invalid
  | EImageFormat.PNG => EImageIOFormat.PNG
  | EImageFormat.JPEG => EImageIOFormat.JPEG
  | EImageFormat.GrayscaleJPEG => EImageIOFormat.GrayscaleJPEG
  | EImageFormat.BMP => EImageIOFormat.BMP
  | EImageFormat.ICO => EImageIOFormat.ICO
  | EImageFormat.EXR => EImageIOFormat.EXR
  | EImageFormat.ICNS => EImageIOFormat.ICNS
  end.

Definition EImageIOFormatToEImageFormat (ImageFormat : EImageIOFormat.t) : EImageFormat.t :=
  match ImageFormat with
  | EImageIOFormat.Invalid => EImageFormat.Invalid
  | EImageIOFormat.PNG => EImageFormat.PNG
  | EImageIOFormat.JPEG => EImageFormat.JPEG
  | EImageIOFormat.GrayscaleJPEG => EImageFormat.GrayscaleJPEG
  | EImageIOFormat.BMP => EImageFormat.BMP
  | EImageIOFormat.ICO => EImageFormat.ICO
  | EImageIOFormat.EXR => EImageFormat.EXR
  | EImageIOFormat.ICNS => EImageFormat.ICNS
  end.

(** ** Definitions used by the statements *)

(** The loop that [Add_Bitmap], [Multiply_Bitmap] and [Divide_Bitmap] each
    write out, around the pixel operation [f]. *)
Definition blend (f : FColor.t -> FColor.t -> FColor.t) (BitmapA BitmapB : list FColor.t)
  : option (list FColor.t) :=
  if (0 <? TArray.Num BitmapA) && (0 <? TArray.Num BitmapB) then
    for_upto (if TArray.Num BitmapA <? TArray.Num BitmapB
              then TArray.Num BitmapA else TArray.Num BitmapB)
      (fun i OutBitmap =>
         a <- TArray.get BitmapA i ;;
         b <- TArray.get BitmapB i ;;
         Some (TArray.Add OutBitmap (f a b)))
      []
  else Some [].

(** The pixel with its alpha replaced by 255. *)
Definition opaque (p : FColor.t) : FColor.t :=
  FColor.rgb (FColor.R p) (FColor.G p) (FColor.B p).

(** The 256 values of a channel, for properties checked channel by channel. *)
Definition channels : list Z := map Z.of_nat (seq 0 256).

(** The map of [SetBitmapBrightness] on one channel. *)
Definition brightness_channel (Brightness : F32.t) (c : Z) : Z :=
  float_to_uint8
    (FMath.Clamp F32.ltb
       (F32.add (F32.of_int c)
          (FMath.GetMappedRangeValueClamped (F32.of_int 0) (F32.of_int 2)
             (F32.of_int (-255)) (F32.of_int 255) Brightness))
       F32.zero (F32.of_int 255)).

(** The map of [SetBitmapContrast] on one channel. *)
Definition contrast_channel (Contrast : F32.t) (c : Z) : Z :=
  let tempContrast :=
    FMath.GetMappedRangeValueClamped (F32.of_int 0) (F32.of_int 2)
                                     (F32.of_int (-255)) (F32.of_int 255) Contrast in
  let factor :=
    F64.to_f32
      (F64.div (F64.mul (F64.of_int 259) (F64.add (F64.of_f32 tempContrast) (F64.of_int 255)))
               (F64.mul (F64.of_int 255) (F64.sub (F64.of_int 259) (F64.of_f32 tempContrast)))) in
  float_to_uint8
    (FMath.Clamp F32.ltb (F32.add (F32.mul factor (F32.of_int (c - 128))) (F32.of_int 128))
                 F32.zero (F32.of_int 255)).

(** The pixels of the all-255 and of the all-zero buffer. *)
Definition white : FColor.t := FColor.make 255 255 255 255.
Definition black : FColor.t := FColor.make 0 0 0 0.


(** A finite value between 0 and 1. *)
Definition in_unit_interval (x : F32.t) : bool :=
  is_finite x && F32.leb F32.zero x && F32.leb x F32.one.

(** A linear colour whose four channels are finite and between 0 and 1. *)
Definition unit_pixel (c : FLinearColor.t) : bool :=
  in_unit_interval (FLinearColor.R c) && in_unit_interval (FLinearColor.G c) &&
  in_unit_interval (FLinearColor.B c) && in_unit_interval (FLinearColor.A c).

(** The kernels whose cells all find a weight to read: the weight list is
    not empty, or the kernel has no cell at all. *)
Definition readable_kernel (Filter : FBitmapFilter.t) : Prop :=
  FBitmapFilter.Filter Filter <> [] \/
  FImageSize.X (FBitmapFilter.Size Filter) <= 0 \/
  FImageSize.Y (FBitmapFilter.Size Filter) <= 0.

(** Where a channel of the divisor [b] is 0, that channel of [p] is 255. *)
Definition saturated_where_zero (b p : FColor.t) : Prop :=
  (FColor.R b = 0 -> FColor.R p = 255) /\ (FColor.G b = 0 -> FColor.G p = 255) /\
  (FColor.B b = 0 -> FColor.B p = 255) /\ (FColor.A b = 0 -> FColor.A p = 255).

(** The nine accumulation steps of the box blur of [GetBitmapFilter] when
    every cell of the kernel reads the channel value [c]. *)
Definition BoxBlur_channel (c : Z) : Z :=
  Nat.iter 9
    (fun temp => accumulate temp c (F32.of_int 1) (F32.lit 11111111 100000000) F32.zero)
    0.

(** Some channel of the pixel is 0. *)
Definition has_zero_channel (p : FColor.t) : bool :=
  (FColor.R p =? 0) || (FColor.G p =? 0) || (FColor.B p =? 0) || (FColor.A p =? 0).


(** The alpha that [ApplyBitmapFilter] starts a working pixel with: the
    alpha of the source pixel [p] on RGBA, 255 otherwise. *)
Definition working_alpha (cc : EFilterColourChannel.t) (p : FColor.t) : Z :=
  if EFilterColourChannel.eqb cc EFilterColourChannel.RGBA then FColor.A p else 255.

(** The alpha of an output pixel of [ApplyBitmapFilter] on the channel [cc],
    for the source pixel [p]. *)
Definition filtered_alpha (cc : EFilterColourChannel.t) (p : FColor.t) : Z :=
  match cc with
  | EFilterColourChannel.RGBA => FColor.A p
  | EFilterColourChannel.A => 0
  | _ => 255
  end.

(** The map of [SetBitmapContrast] at contrast 2 on a channel: a threshold
    at 128. *)
Definition contrast_threshold (c : Z) : Z :=
  if c <? 128 then 0 else if c =? 128 then 128 else 255.




(** * Properties *)

(** ** Loops *)

Section ForLoop.
Context {S : Type}.

(** Two bodies that agree give the same loop. *)
Lemma for_loop_ext (body body' : Z -> S -> option S) :
  (forall i s, body i s = body' i s) ->
  forall n i s, for_loop n i body s = for_loop n i body' s.
Proof.
  intros Hext n; induction n as [|n IH]; intros i s; simpl.
  - reflexivity.
  - rewrite Hext. destruct (body' i s); [apply IH | reflexivity].
Qed.

(** An invariant kept by every iteration whose body succeeds under it makes
    the whole loop succeed, and holds at its exit. *)
Lemma for_loop_invariant (P : Z -> S -> Prop) (body : Z -> S -> option S) :
  forall (n : nat) (i0 : Z) (s : S),
    P i0 s ->
    (forall i t, i0 <= i < i0 + Z.of_nat n -> P i t ->
                 exists t', body i t = Some t' /\ P (i + 1) t') ->
    exists s', for_loop n i0 body s = Some s' /\ P (i0 + Z.of_nat n) s'.
Proof.
  induction n as [|n IH]; intros i0 s H0 Hstep.
  - exists s. simpl. rewrite Z.add_0_r. auto.
  - destruct (Hstep i0 s) as [s1 [E1 P1]]; [lia | assumption |].
    destruct (IH (i0 + 1) s1 P1) as [s' [E' P']].
    + intros i t Hi HP. apply Hstep; [lia | assumption].
    + exists s'. cbn [for_loop]. rewrite E1. split; [assumption |].
      replace (i0 + Z.of_nat (Datatypes.S n)) with (i0 + 1 + Z.of_nat n) by lia.
      assumption.
Qed.

Lemma for_upto_invariant (P : Z -> S -> Prop) (body : Z -> S -> option S)
      (bound : Z) (s : S) :
  P 0 s ->
  (forall i t, 0 <= i < bound -> P i t ->
               exists t', body i t = Some t' /\ P (i + 1) t') ->
  exists s', for_upto bound body s = Some s' /\ P (Z.max 0 bound) s'.
Proof.
  intros H0 Hstep. unfold for_upto.
  destruct (for_loop_invariant P body (Z.to_nat bound) 0 s H0) as [s' [E HP]].
  - intros i t Hi. apply Hstep. lia.
  - exists s'. split; [assumption |].
    replace (Z.max 0 bound) with (0 + Z.of_nat (Z.to_nat bound)) by lia.
    assumption.
Qed.
End ForLoop.

(** ** Arrays *)

Section TArrayFacts.
Context {T : Type}.
Implicit Types (a b : list T) (x : T) (i : Z).

Lemma Num_nonneg a : 0 <= TArray.Num a.
Proof. unfold TArray.Num. lia. Qed.

Lemma Num_Add a x : TArray.Num (TArray.Add a x) = TArray.Num a + 1.
Proof. unfold TArray.Num, TArray.Add. rewrite length_app. simpl. lia. Qed.

Lemma Num_zero_nil a : TArray.Num a = 0 -> a = [].
Proof. destruct a; [reflexivity | unfold TArray.Num; simpl; lia]. Qed.

Lemma get_Some_range a i x : TArray.get a i = Some x -> 0 <= i < TArray.Num a.
Proof.
  unfold TArray.get.
  destruct (0 <=? i) eqn:E1; destruct (i <? TArray.Num a) eqn:E2; simpl;
    try discriminate.
  intros _. apply Z.leb_le in E1. apply Z.ltb_lt in E2. lia.
Qed.

Lemma get_in_range a i : 0 <= i < TArray.Num a -> exists x, TArray.get a i = Some x.
Proof.
  intros Hi. unfold TArray.get.
  replace (0 <=? i) with true by (symmetry; apply Z.leb_le; lia).
  replace (i <? TArray.Num a) with true by (symmetry; apply Z.ltb_lt; lia).
  simpl. destruct (nth_error a (Z.to_nat i)) eqn:E; [eauto |].
  apply nth_error_None in E. unfold TArray.Num in Hi. lia.
Qed.

Lemma get_Add_old a x i : 0 <= i < TArray.Num a -> TArray.get (TArray.Add a x) i = TArray.get a i.
Proof.
  intros Hi. unfold TArray.get. rewrite Num_Add.
  replace (0 <=? i) with true by (symmetry; apply Z.leb_le; lia).
  replace (i <? TArray.Num a + 1) with true by (symmetry; apply Z.ltb_lt; lia).
  replace (i <? TArray.Num a) with true by (symmetry; apply Z.ltb_lt; lia).
  simpl. unfold TArray.Add. apply nth_error_app1. unfold TArray.Num in Hi. lia.
Qed.

Lemma get_Add_new a x : TArray.get (TArray.Add a x) (TArray.Num a) = Some x.
Proof.
  unfold TArray.get. rewrite Num_Add.
  pose proof (Num_nonneg a).
  replace (0 <=? TArray.Num a) with true by (symmetry; apply Z.leb_le; lia).
  replace (TArray.Num a <? TArray.Num a + 1) with true by (symmetry; apply Z.ltb_lt; lia).
  simpl. unfold TArray.Add, TArray.Num. rewrite Nat2Z.id.
  rewrite nth_error_app2 by lia. rewrite Nat.sub_diag. reflexivity.
Qed.

(** Emplacing at the end of the array is [Add]. *)
Lemma EmplaceAt_end a x : TArray.EmplaceAt a (TArray.Num a) x = Some (TArray.Add a x).
Proof.
  unfold TArray.EmplaceAt. pose proof (Num_nonneg a).
  replace (0 <=? TArray.Num a) with true by (symmetry; apply Z.leb_le; lia).
  rewrite Z.leb_refl. simpl. unfold TArray.Num. rewrite Nat2Z.id.
  rewrite firstn_all, skipn_all. reflexivity.
Qed.
End TArrayFacts.

(** ** The three blend loops

    [Add_Bitmap], [Multiply_Bitmap] and [Divide_Bitmap] are one loop around
    three pixel operations. *)

Lemma Add_Bitmap_blend A B : Add_Bitmap A B = blend Add_Bitmap_pixel A B.
Proof. reflexivity. Qed.

Lemma Multiply_Bitmap_blend A B :
  Multiply_Bitmap A B = blend (fun a b => FLinearColor.ToFColor (Multiply_Bitmap_pixel a b)) A B.
Proof. reflexivity. Qed.

Lemma Divide_Bitmap_blend A B :
  Divide_Bitmap A B = blend (fun a b => FLinearColor.ToFColor (Divide_Bitmap_pixel a b)) A B.
Proof. reflexivity. Qed.

(** A blend never fails; its output has the length of the shorter input and
    holds at each index the pixel operation applied to the two inputs. *)
Lemma blend_spec f A B :
  exists Out,
    blend f A B = Some Out /\
    TArray.Num Out = Z.min (TArray.Num A) (TArray.Num B) /\
    forall j p, TArray.get Out j = Some p ->
      exists a b, TArray.get A j = Some a /\ TArray.get B j = Some b /\ p = f a b.
Proof.
  unfold blend. pose proof (Num_nonneg A) as HA. pose proof (Num_nonneg B) as HB.
  destruct ((0 <? TArray.Num A) && (0 <? TArray.Num B)) eqn:Hguard.
  - set (n := if TArray.Num A <? TArray.Num B then TArray.Num A else TArray.Num B).
    assert (Hn : n = Z.min (TArray.Num A) (TArray.Num B)).
    { unfold n. destruct (TArray.Num A <? TArray.Num B) eqn:E.
      - apply Z.ltb_lt in E. lia.
      - apply Z.ltb_ge in E. lia. }
    destruct (for_upto_invariant
                (fun i Out => TArray.Num Out = i /\
                   forall j p, TArray.get Out j = Some p ->
                     exists a b, TArray.get A j = Some a /\ TArray.get B j = Some b /\ p = f a b)
                (fun i OutBitmap =>
                   a <- TArray.get A i ;; b <- TArray.get B i ;;
                   Some (TArray.Add OutBitmap (f a b)))
                n []) as [Out [E [HN Hget]]].
    + split; [reflexivity |]. intros j p Hj. apply get_Some_range in Hj.
      unfold TArray.Num in Hj. simpl in Hj. lia.
    + intros i Out Hi [HN Hget].
      destruct (get_in_range A i) as [a Ea]; [lia |].
      destruct (get_in_range B i) as [b Eb]; [lia |].
      exists (TArray.Add Out (f a b)). rewrite Ea, Eb. simpl.
      split; [reflexivity |]. split; [rewrite Num_Add; lia |].
      intros j p Hj. pose proof (get_Some_range _ _ _ Hj) as Hr.
      rewrite Num_Add in Hr.
      destruct (Z.eq_dec j i) as [-> | Hne].
      * rewrite <- HN, get_Add_new in Hj. injection Hj as <-. eauto.
      * rewrite get_Add_old in Hj by lia. auto.
    + exists Out. split; [assumption |]. split; [lia | assumption].
  - exists []. split; [reflexivity |]. split.
    + apply andb_false_iff in Hguard.
      destruct Hguard as [E | E]; apply Z.ltb_ge in E; unfold TArray.Num at 1; simpl; lia.
    + intros j p Hj. apply get_Some_range in Hj. unfold TArray.Num in Hj. simpl in Hj. lia.
Qed.

(** ** [Add_Bitmap] *)

Lemma Add_Bitmap_pixel_comm a b : Add_Bitmap_pixel a b = Add_Bitmap_pixel b a.
Proof.
  unfold Add_Bitmap_pixel, Add_Bitmap_special_case, FColor.add_assign.
  rewrite (Z.eqb_sym (FColor.A b) (FColor.A a)).
  rewrite (Z.add_comm (FColor.R b)), (Z.add_comm (FColor.G b)),
          (Z.add_comm (FColor.B b)), (Z.add_comm (FColor.A b)).
  reflexivity.
Qed.

(** Two pixels of equal alpha, in particular two fully transparent ones, take
    the generic branch: the special case fires exactly when the alphas differ. *)
Lemma Add_Bitmap_special_case_iff a b :
  Add_Bitmap_special_case a b = true <-> FColor.A a <> FColor.A b.
Proof.
  unfold Add_Bitmap_special_case.
  destruct (FColor.A a =? FColor.A b) eqn:E; simpl.
  - apply Z.eqb_eq in E. split; [discriminate | contradiction].
  - apply Z.eqb_neq in E. split; [auto | reflexivity].
Qed.

(** A pixel of the output of a blend, from the two pixels it is made of. *)
Lemma blend_get f A B i a b :
  TArray.get A i = Some a -> TArray.get B i = Some b ->
  exists Out, blend f A B = Some Out /\ TArray.get Out i = Some (f a b).
Proof.
  intros Ha Hb. destruct (blend_spec f A B) as [Out [E [HN Hget]]].
  exists Out. split; [assumption |].
  pose proof (get_Some_range _ _ _ Ha) as Ra. pose proof (get_Some_range _ _ _ Hb) as Rb.
  destruct (get_in_range Out i) as [p Ep]; [lia |].
  destruct (Hget i p Ep) as [a' [b' [Ea' [Eb' ->]]]].
  rewrite Ha in Ea'. injection Ea' as <-. rewrite Hb in Eb'. injection Eb' as <-.
  assumption.
Qed.

(** C1. Where the two input pixels at an index both have alpha 0,
    [Add_Bitmap] outputs their clamped channel-wise sum, not the zeroed
    pixel: the chained test [a.A == b.A == 0] compares the truth value of
    [a.A == b.A] with 0 and is false when the alphas are equal. *)
Theorem Add_Bitmap_transparent_pair_is_summed (BitmapA BitmapB : list FColor.t)
        (i : Z) (a b : FColor.t) :
  TArray.get BitmapA i = Some a -> TArray.get BitmapB i = Some b ->
  FColor.A a = 0 -> FColor.A b = 0 ->
  exists Out,
    Add_Bitmap BitmapA BitmapB = Some Out /\
    TArray.get Out i = Some (FColor.add_assign a b).
Proof.
  intros Ha Hb Za Zb. rewrite Add_Bitmap_blend.
  destruct (blend_get Add_Bitmap_pixel BitmapA BitmapB i a b Ha Hb) as [Out [E Ei]].
  exists Out. split; [assumption |]. rewrite Ei. f_equal.
  unfold Add_Bitmap_pixel.
  destruct (Add_Bitmap_special_case a b) eqn:Hs; [| reflexivity].
  apply Add_Bitmap_special_case_iff in Hs. congruence.
Qed.

Lemma Add_Bitmap_transparent_pair_is_summed_witness :
  exists Out,
    Add_Bitmap [FColor.make 1 2 3 0] [FColor.make 4 5 6 0] = Some Out /\
    TArray.get Out 0 = Some (FColor.make 5 7 9 0).
Proof.
  apply (Add_Bitmap_transparent_pair_is_summed
           [FColor.make 1 2 3 0] [FColor.make 4 5 6 0] 0
           (FColor.make 1 2 3 0) (FColor.make 4 5 6 0)); reflexivity.
Defined.

Example Add_Bitmap_transparent_pair :
  Add_Bitmap [FColor.make 1 2 3 0] [FColor.make 4 5 6 0] = Some [FColor.make 5 7 9 0].
Proof. reflexivity. Qed.

(** C8. For two bitmaps of the same length, [Add_Bitmap] gives the same
    result whichever way round its arguments are, special-case branch
    included. *)
Theorem Add_Bitmap_comm (BitmapA BitmapB : list FColor.t) :
  TArray.Num BitmapA = TArray.Num BitmapB ->
  Add_Bitmap BitmapA BitmapB = Add_Bitmap BitmapB BitmapA.
Proof.
  intros Hlen. unfold Add_Bitmap. rewrite Hlen.
  destruct ((0 <? TArray.Num BitmapB) && (0 <? TArray.Num BitmapB)); [| reflexivity].
  unfold for_upto. apply for_loop_ext. intros i Out.
  destruct (TArray.get BitmapA i), (TArray.get BitmapB i); simpl;
    try reflexivity.
  rewrite Add_Bitmap_pixel_comm. reflexivity.
Qed.

Lemma Add_Bitmap_comm_witness :
  Add_Bitmap [FColor.make 1 2 3 4; FColor.make 9 9 9 0]
             [FColor.make 250 6 7 0; FColor.make 1 1 1 0]
  = Add_Bitmap [FColor.make 250 6 7 0; FColor.make 1 1 1 0]
               [FColor.make 1 2 3 4; FColor.make 9 9 9 0].
Proof. apply Add_Bitmap_comm. reflexivity. Defined.

(** ** Lengths of the blends *)

(** C5. [Add_Bitmap], [Multiply_Bitmap] and [Divide_Bitmap] always return a
    bitmap; when both inputs are non-empty it has the length of the shorter
    one, and when either is empty it is empty. *)
Theorem blend_output_length (BitmapA BitmapB : list FColor.t) :
  let expected (Out : list FColor.t) :=
    if (0 <? TArray.Num BitmapA) && (0 <? TArray.Num BitmapB)
    then TArray.Num Out = Z.min (TArray.Num BitmapA) (TArray.Num BitmapB)
    else Out = [] in
  (exists Out, Add_Bitmap BitmapA BitmapB = Some Out /\ expected Out) /\
  (exists Out, Multiply_Bitmap BitmapA BitmapB = Some Out /\ expected Out) /\
  (exists Out, Divide_Bitmap BitmapA BitmapB = Some Out /\ expected Out).
Proof.
  intros expected.
  assert (H : forall f, exists Out, blend f BitmapA BitmapB = Some Out /\ expected Out).
  { intros f. destruct (blend_spec f BitmapA BitmapB) as [Out [E [HN _]]].
    exists Out. split; [assumption |]. unfold expected.
    destruct ((0 <? TArray.Num BitmapA) && (0 <? TArray.Num BitmapB)) eqn:Hguard;
      [assumption |].
    apply Num_zero_nil. pose proof (Num_nonneg BitmapA). pose proof (Num_nonneg BitmapB).
    apply andb_false_iff in Hguard. destruct Hguard as [G | G]; apply Z.ltb_ge in G; lia. }
  rewrite Add_Bitmap_blend, Multiply_Bitmap_blend, Divide_Bitmap_blend.
  repeat split; apply H.
Qed.

(** ** [SetBitmapBrightness] and [SetBitmapContrast] *)

(** C3, as amended. Whatever the brightness, every pixel returned by
    [SetBitmapBrightness] has alpha 255: the colours are built with the
    three-argument constructor, whose alpha is the default. *)
Theorem SetBitmapBrightness_alpha_opaque (Bitmap : list FColor.t) (Brightness : F32.t) :
  map FColor.A (SetBitmapBrightness Bitmap Brightness) = map (fun _ => 255) Bitmap.
Proof.
  unfold SetBitmapBrightness. rewrite map_map. reflexivity.
Qed.

(** C3 as stated fails: a transparent pixel comes back opaque. *)
Lemma SetBitmapBrightness_alpha_changed :
  map FColor.A (SetBitmapBrightness [FColor.make 10 20 30 0] F32.one)
  <> map FColor.A [FColor.make 10 20 30 0].
Proof. vm_compute. discriminate. Qed.

Lemma channel_cases (P : Z -> bool) :
  forallb P channels = true -> forall c, FColor.channel_ok c = true -> P c = true.
Proof.
  intros H c Hc. rewrite forallb_forall in H. apply H.
  unfold FColor.channel_ok in Hc. apply andb_true_iff in Hc. destruct Hc as [H0 H1].
  apply Z.leb_le in H0. apply Z.ltb_lt in H1.
  unfold channels. apply in_map_iff. exists (Z.to_nat c). split; [lia |].
  apply in_seq. lia.
Qed.

Lemma wf_channels p :
  FColor.wf p = true ->
  FColor.channel_ok (FColor.R p) = true /\ FColor.channel_ok (FColor.G p) = true /\
  FColor.channel_ok (FColor.B p) = true /\ FColor.channel_ok (FColor.A p) = true.
Proof.
  unfold FColor.wf. intros H.
  apply andb_true_iff in H. destruct H as [H HA].
  apply andb_true_iff in H. destruct H as [H HB].
  apply andb_true_iff in H. destruct H as [HR HG]. auto.
Qed.

Lemma SetBitmapBrightness_map Bitmap Brightness :
  SetBitmapBrightness Bitmap Brightness =
  map (fun pixel => FColor.rgb (brightness_channel Brightness (FColor.R pixel))
                               (brightness_channel Brightness (FColor.G pixel))
                               (brightness_channel Brightness (FColor.B pixel))) Bitmap.
Proof. unfold SetBitmapBrightness, brightness_channel. reflexivity. Qed.

Lemma SetBitmapContrast_map Bitmap Contrast :
  SetBitmapContrast Bitmap Contrast =
  map (fun pixel => FColor.rgb (contrast_channel Contrast (FColor.R pixel))
                               (contrast_channel Contrast (FColor.G pixel))
                               (contrast_channel Contrast (FColor.B pixel))) Bitmap.
Proof. unfold SetBitmapContrast, contrast_channel. reflexivity. Qed.

(** At the neutral parameter the offset is 0 and the factor is 1, and every
    channel value comes back. *)
Lemma brightness_channel_neutral c :
  FColor.channel_ok c = true -> brightness_channel F32.one c = c.
Proof.
  intros Hc. apply Z.eqb_eq.
  apply (channel_cases (fun c => brightness_channel F32.one c =? c)); [| assumption].
  vm_compute. reflexivity.
Qed.

Lemma contrast_channel_neutral c :
  FColor.channel_ok c = true -> contrast_channel F32.one c = c.
Proof.
  intros Hc. apply Z.eqb_eq.
  apply (channel_cases (fun c => contrast_channel F32.one c =? c)); [| assumption].
  vm_compute. reflexivity.
Qed.

(** C2, as amended. At the neutral parameter 1.0, [SetBitmapBrightness] and
    [SetBitmapContrast] return the input with its R, G and B channels
    unchanged and every alpha set to 255; the result is the input itself
    when every pixel of the input is opaque. *)
Theorem neutral_tone_is_opaque_copy (Bitmap : list FColor.t) :
  Forall (fun p => FColor.wf p = true) Bitmap ->
  SetBitmapBrightness Bitmap F32.one = map opaque Bitmap /\
  SetBitmapContrast Bitmap F32.one = map opaque Bitmap /\
  (Forall (fun p => FColor.A p = 255) Bitmap -> map opaque Bitmap = Bitmap).
Proof.
  intros Hwf. rewrite SetBitmapBrightness_map, SetBitmapContrast_map.
  rewrite Forall_forall in Hwf.
  repeat split.
  - apply map_ext_in. intros p Hp.
    destruct (wf_channels p (Hwf p Hp)) as [HR [HG [HB _]]].
    rewrite !brightness_channel_neutral by assumption. reflexivity.
  - apply map_ext_in. intros p Hp.
    destruct (wf_channels p (Hwf p Hp)) as [HR [HG [HB _]]].
    rewrite !contrast_channel_neutral by assumption. reflexivity.
  - intros Hop. rewrite <- (map_id Bitmap) at 2. apply map_ext_in.
    intros p Hp. rewrite Forall_forall in Hop. specialize (Hop p Hp).
    destruct p as [r g b a]. simpl in Hop. subst a. reflexivity.
Qed.

Lemma neutral_tone_is_opaque_copy_witness :
  SetBitmapBrightness [FColor.make 10 20 30 40; FColor.make 255 0 128 255] F32.one
    = map opaque [FColor.make 10 20 30 40; FColor.make 255 0 128 255] /\
  SetBitmapContrast [FColor.make 10 20 30 40; FColor.make 255 0 128 255] F32.one
    = map opaque [FColor.make 10 20 30 40; FColor.make 255 0 128 255].
Proof.
  destruct (neutral_tone_is_opaque_copy
              [FColor.make 10 20 30 40; FColor.make 255 0 128 255]) as [H1 [H2 _]].
  - repeat constructor.
  - split; assumption.
Defined.

(** C2 as stated fails: on a transparent pixel neither adjuster returns its
    input at 1.0. *)
Lemma neutral_tone_not_identity :
  SetBitmapBrightness [FColor.make 10 20 30 0] F32.one <> [FColor.make 10 20 30 0] /\
  SetBitmapContrast [FColor.make 10 20 30 0] F32.one <> [FColor.make 10 20 30 0].
Proof. split; vm_compute; discriminate. Qed.

(** ** [Multiply_Bitmap] and [Add_Bitmap] against a constant buffer *)

Section GetFacts.
Context {T U : Type}.

Lemma get_of_nat (l : list T) (n : nat) : TArray.get l (Z.of_nat n) = nth_error l n.
Proof.
  unfold TArray.get, TArray.Num.
  replace (0 <=? Z.of_nat n) with true by (symmetry; apply Z.leb_le; lia).
  rewrite Nat2Z.id. simpl.
  destruct (Z.of_nat n <? Z.of_nat (length l)) eqn:E; [reflexivity |].
  apply Z.ltb_ge in E. symmetry. apply nth_error_None. lia.
Qed.

Lemma get_ext (l l' : list T) : (forall j, TArray.get l j = TArray.get l' j) -> l = l'.
Proof.
  intros H. apply nth_error_ext. intros n. rewrite <- !get_of_nat. apply H.
Qed.

Lemma get_None_iff (l : list T) (j : Z) :
  TArray.get l j = None <-> ~ (0 <= j < TArray.Num l).
Proof.
  split.
  - intros E Hj. destruct (get_in_range l j Hj) as [x Ex]. congruence.
  - intros Hj. destruct (TArray.get l j) eqn:E; [| reflexivity].
    apply get_Some_range in E. contradiction.
Qed.

Lemma get_map (g : T -> U) (l : list T) (j : Z) :
  TArray.get (map g l) j = option_map g (TArray.get l j).
Proof.
  unfold TArray.get, TArray.Num. rewrite length_map.
  destruct ((0 <=? j) && (j <? Z.of_nat (length l))); [| reflexivity].
  apply nth_error_map.
Qed.

Lemma Num_map (g : T -> U) (l : list T) : TArray.Num (map g l) = TArray.Num l.
Proof. unfold TArray.Num. rewrite length_map. reflexivity. Qed.

Lemma get_repeat (x : T) (n : nat) (j : Z) (y : T) :
  TArray.get (repeat x n) j = Some y -> y = x.
Proof.
  unfold TArray.get. destruct ((0 <=? j) && _); [| discriminate].
  intros E. apply nth_error_In in E. apply repeat_spec in E. assumption.
Qed.

Lemma Num_repeat (x : T) (n : nat) : TArray.Num (repeat x n) = Z.of_nat n.
Proof. unfold TArray.Num. rewrite repeat_length. reflexivity. Qed.
End GetFacts.

(** A blend against a buffer of the same length whose pixel operation only
    reads the first argument is a map over the first bitmap. *)
Lemma blend_map f (g : FColor.t -> FColor.t) A B :
  TArray.Num A = TArray.Num B ->
  (forall j a b, TArray.get A j = Some a -> TArray.get B j = Some b -> f a b = g a) ->
  blend f A B = Some (map g A).
Proof.
  intros Hlen Hfg. destruct (blend_spec f A B) as [Out [E [HN Hget]]].
  rewrite E. f_equal. apply get_ext. intros j. rewrite get_map.
  destruct (TArray.get Out j) as [p |] eqn:Ej.
  - destruct (Hget j p Ej) as [a [b [Ea [Eb ->]]]].
    rewrite Ea. simpl. f_equal. eapply Hfg; eassumption.
  - apply get_None_iff in Ej. rewrite HN, <- Hlen, Z.min_id in Ej.
    apply get_None_iff in Ej. rewrite Ej. reflexivity.
Qed.







(** ** [Divide_Bitmap] *)

Lemma SFltb_SFleb x y : SFltb x y = true -> SFleb x y = true.
Proof.
  unfold SFltb, SFleb. destruct (SFcompare x y) as [[| |] |]; congruence.
Qed.

(** [Clamp] to [0,1] absorbs NaN and the infinities: NaN fails both
    comparisons and becomes 1, and so does plus infinity. *)
Lemma Clamp_unit_interval x :
  in_unit_interval (FMath.Clamp F32.ltb x F32.zero F32.one) = true.
Proof.
  unfold FMath.Clamp.
  destruct (F32.ltb x F32.zero) eqn:E0; [reflexivity |].
  destruct (F32.ltb x F32.one) eqn:E1; [| reflexivity].
  unfold in_unit_interval. unfold F32.leb at 2. rewrite (SFltb_SFleb _ _ E1).
  destruct x as [s | s | | s m e].
  - reflexivity.
  - destruct s; discriminate.
  - discriminate.
  - destruct s; [discriminate | reflexivity].
Qed.

Lemma Clamp_NaN : FMath.Clamp F32.ltb S754_nan F32.zero F32.one = F32.one.
Proof. reflexivity. Qed.

Lemma Clamp_infinity : FMath.Clamp F32.ltb (S754_infinity false) F32.zero F32.one = F32.one.
Proof. reflexivity. Qed.

Lemma Divide_Bitmap_pixel_unit a b : unit_pixel (Divide_Bitmap_pixel a b) = true.
Proof.
  unfold unit_pixel, Divide_Bitmap_pixel.
  cbn [FLinearColor.R FLinearColor.G FLinearColor.B FLinearColor.A].
  rewrite !Clamp_unit_interval. reflexivity.
Qed.

Lemma uint8_channel_ok z : FColor.channel_ok (uint8 z) = true.
Proof.
  unfold FColor.channel_ok, uint8.
  pose proof (Z.mod_pos_bound z 256 ltac:(lia)) as H.
  apply andb_true_iff. split; [apply Z.leb_le | apply Z.ltb_lt]; lia.
Qed.

Lemma ToFColor_wf c : FColor.wf (FLinearColor.ToFColor c) = true.
Proof.
  unfold FColor.wf, FLinearColor.ToFColor, FLinearColor.quantise.
  cbn [FColor.R FColor.G FColor.B FColor.A].
  rewrite !uint8_channel_ok. reflexivity.
Qed.

(** Division by a zero channel: 0/0 is NaN and x/0 is plus infinity, and
    both are clamped to 1 and quantised to 255. *)
Lemma divide_by_zero_colour c :
  FColor.channel_ok c = true ->
  FLinearColor.quantise
    (FMath.Clamp F32.ltb
       (F32.div (FLinearColor.sRGBToLinearTable c) (FLinearColor.sRGBToLinearTable 0))
       F32.zero F32.one) = 255.
Proof.
  intros Hc. apply Z.eqb_eq.
  apply (channel_cases
           (fun c => FLinearColor.quantise
                       (FMath.Clamp F32.ltb
                          (F32.div (FLinearColor.sRGBToLinearTable c)
                                   (FLinearColor.sRGBToLinearTable 0))
                          F32.zero F32.one) =? 255)); [| assumption].
  vm_compute. reflexivity.
Qed.

Lemma divide_by_zero_alpha c :
  FColor.channel_ok c = true ->
  FLinearColor.quantise
    (FMath.Clamp F32.ltb
       (F32.div (F32.mul (F32.of_int c) FLinearColor.OneOver255)
                (F32.mul (F32.of_int 0) FLinearColor.OneOver255))
       F32.zero F32.one) = 255.
Proof.
  intros Hc. apply Z.eqb_eq.
  apply (channel_cases
           (fun c => FLinearColor.quantise
                       (FMath.Clamp F32.ltb
                          (F32.div (F32.mul (F32.of_int c) FLinearColor.OneOver255)
                                   (F32.mul (F32.of_int 0) FLinearColor.OneOver255))
                          F32.zero F32.one) =? 255)); [| assumption].
  vm_compute. reflexivity.
Qed.

Lemma Divide_Bitmap_pixel_saturates a b :
  FColor.wf a = true ->
  saturated_where_zero b (FLinearColor.ToFColor (Divide_Bitmap_pixel a b)).
Proof.
  intros Ha. destruct (wf_channels a Ha) as [HR [HG [HB HA]]].
  unfold saturated_where_zero, Divide_Bitmap_pixel, FLinearColor.ToFColor,
    FLinearColor.of_FColor.
  cbn [FLinearColor.R FLinearColor.G FLinearColor.B FLinearColor.A
       FColor.R FColor.G FColor.B FColor.A].
  repeat split; intros ->.
  - apply divide_by_zero_colour; assumption.
  - apply divide_by_zero_colour; assumption.
  - apply divide_by_zero_colour; assumption.
  - apply divide_by_zero_alpha; assumption.
Qed.

(** C4. When some channel of some pixel of the second bitmap, within the
    common length, is zero, [Divide_Bitmap] still returns a bitmap, of the
    common length; each of its pixels is the quantisation of a colour whose
    four channels are finite (neither NaN nor infinite) and lie between 0
    and 1, and has its four channels in 0..255; a channel whose divisor is
    0 comes out as 255. *)
Theorem Divide_Bitmap_zero_channel_defined (BitmapA BitmapB : list FColor.t) :
  (exists i a b, TArray.get BitmapA i = Some a /\ TArray.get BitmapB i = Some b /\
                 has_zero_channel b = true) ->
  exists Out,
    Divide_Bitmap BitmapA BitmapB = Some Out /\
    TArray.Num Out = Z.min (TArray.Num BitmapA) (TArray.Num BitmapB) /\
    forall j p, TArray.get Out j = Some p ->
      exists a b,
        TArray.get BitmapA j = Some a /\ TArray.get BitmapB j = Some b /\
        p = FLinearColor.ToFColor (Divide_Bitmap_pixel a b) /\
        unit_pixel (Divide_Bitmap_pixel a b) = true /\
        FColor.wf p = true /\
        (FColor.wf a = true -> saturated_where_zero b p).
Proof.
  intros _. rewrite Divide_Bitmap_blend.
  destruct (blend_spec (fun a b => FLinearColor.ToFColor (Divide_Bitmap_pixel a b))
                       BitmapA BitmapB) as [Out [E [HN Hget]]].
  exists Out. split; [assumption |]. split; [assumption |].
  intros j p Hj. destruct (Hget j p Hj) as [a [b [Ea [Eb ->]]]].
  exists a, b. split; [assumption |]. split; [assumption |].
  split; [reflexivity |]. split; [apply Divide_Bitmap_pixel_unit |].
  split; [apply ToFColor_wf | apply Divide_Bitmap_pixel_saturates].
Qed.

(** 0/0 in the red and alpha channels, x/0 in the green one. *)
Lemma Divide_Bitmap_zero_channel_defined_witness :
  exists Out,
    Divide_Bitmap [FColor.make 0 10 20 0] [FColor.make 0 0 5 0] = Some Out /\
    TArray.Num Out = 1 /\
    forall j p, TArray.get Out j = Some p ->
      exists a b,
        TArray.get [FColor.make 0 10 20 0] j = Some a /\
        TArray.get [FColor.make 0 0 5 0] j = Some b /\
        p = FLinearColor.ToFColor (Divide_Bitmap_pixel a b) /\
        unit_pixel (Divide_Bitmap_pixel a b) = true /\
        FColor.wf p = true /\
        (FColor.wf a = true -> saturated_where_zero b p).
Proof.
  apply (Divide_Bitmap_zero_channel_defined [FColor.make 0 10 20 0] [FColor.make 0 0 5 0]).
  exists 0, (FColor.make 0 10 20 0), (FColor.make 0 0 5 0).
  repeat split; reflexivity.
Defined.

Example Divide_Bitmap_by_zero_saturates :
  Divide_Bitmap [FColor.make 0 10 20 0] [FColor.make 0 0 5 0] = Some [white].
Proof. vm_compute. reflexivity. Qed.

(** ** [ApplyBitmapFilter] *)

(** A loop whose first iteration fails, fails. *)
Lemma for_upto_first_fails {S : Type} (bound : Z) (body : Z -> S -> option S) (s : S) :
  0 < bound -> body 0 s = None -> for_upto bound body s = None.
Proof.
  intros Hb H0. unfold for_upto.
  destruct (Z.to_nat bound) as [| n] eqn:E; [lia |].
  cbn [for_loop]. rewrite H0. reflexivity.
Qed.

Lemma get_nil {T : Type} (i : Z) : TArray.get (@nil T) i = None.
Proof. apply get_None_iff. unfold TArray.Num. simpl. lia. Qed.

(** C9. With an empty weight list and a kernel of positive width and
    height, [ApplyBitmapFilter] fails on every bitmap of positive size: the
    weight index of the first kernel cell is [Clamp(0, 0, -1) = -1] and the
    read [filter[-1]] is outside the array. *)
Theorem ApplyBitmapFilter_empty_weights_fails (Bitmap : list FColor.t)
        (Size : FImageSize.t) (Filter : FBitmapFilter.t) :
  0 < FImageSize.X Size -> 0 < FImageSize.Y Size ->
  FBitmapFilter.Filter Filter = [] ->
  0 < FImageSize.X (FBitmapFilter.Size Filter) ->
  0 < FImageSize.Y (FBitmapFilter.Size Filter) ->
  FMath.Clamp Z.ltb 0 0 (TArray.Num (FBitmapFilter.Filter Filter) - 1) = -1 /\
  ApplyBitmapFilter Bitmap Size Filter = None.
Proof.
  intros HX HY HF HfW HfH. split; [rewrite HF; reflexivity |].
  assert (Hpix : ApplyBitmapFilter_pixel Bitmap Size Filter 0 0 = None).
  { unfold ApplyBitmapFilter_pixel.
    match goal with
    | |- bind ?al _ = None => destruct al as [tempAlpha |]; [| reflexivity]
    end.
    cbn [bind].
    match goal with
    | |- bind ?loops _ = None => assert (Hloops : loops = None); [| rewrite Hloops; reflexivity]
    end.
    apply for_upto_first_fails; [assumption |].
    apply for_upto_first_fails; [assumption |].
    rewrite HF, get_nil.
    match goal with
    | |- bind ?rd _ = None => destruct rd; reflexivity
    end. }
  unfold ApplyBitmapFilter.
  apply for_upto_first_fails; [assumption |].
  apply for_upto_first_fails; [assumption |].
  rewrite Hpix. reflexivity.
Qed.

Lemma ApplyBitmapFilter_empty_weights_fails_witness :
  FMath.Clamp Z.ltb 0 0 (TArray.Num (@nil F32.t) - 1) = -1 /\
  ApplyBitmapFilter [white] (FImageSize.make 1 1)
    (FBitmapFilter.make (FImageSize.make 1 1) [] F32.one F32.zero EFilterColourChannel.RGB)
  = None.
Proof.
  apply (ApplyBitmapFilter_empty_weights_fails [white] (FImageSize.make 1 1)
           (FBitmapFilter.make (FImageSize.make 1 1) [] F32.one F32.zero
                               EFilterColourChannel.RGB)); reflexivity.
Defined.

Lemma Clamp_int_range v hi : 0 <= hi -> 0 <= FMath.Clamp Z.ltb v 0 hi <= hi.
Proof.
  intros Hhi. unfold FMath.Clamp.
  destruct (v <? 0) eqn:E0; [lia |].
  destruct (v <? hi) eqn:E1; [| lia].
  apply Z.ltb_ge in E0. apply Z.ltb_lt in E1. lia.
Qed.

Lemma Clamp_int_id v hi : 0 <= v <= hi -> FMath.Clamp Z.ltb v 0 hi = v.
Proof.
  intros Hv. unfold FMath.Clamp.
  destruct (v <? 0) eqn:E0; [apply Z.ltb_lt in E0; lia |].
  destruct (v <? hi) eqn:E1; [reflexivity |].
  apply Z.ltb_ge in E1. lia.
Qed.

Lemma int32_id z : INT32_MIN <= z <= INT32_MAX -> int32 z = z.
Proof.
  unfold INT32_MIN, INT32_MAX, int32. intros Hz.
  rewrite Z.mod_small by lia. lia.
Qed.

(** With a non-empty weight list every weight index is clamped into the
    list, and every pixel index into a non-empty bitmap. *)
Lemma clamped_read {T : Type} (a : list T) (v : Z) :
  0 < TArray.Num a -> exists x, TArray.get a (FMath.Clamp Z.ltb v 0 (TArray.Num a - 1)) = Some x.
Proof.
  intros Hn. apply get_in_range.
  pose proof (Clamp_int_range v (TArray.Num a - 1) ltac:(lia)). lia.
Qed.

Lemma Num_pos_iff {T : Type} (a : list T) : 0 < TArray.Num a <-> a <> [].
Proof.
  unfold TArray.Num. destruct a; simpl; split; intros H; try lia; congruence.
Qed.

(** The colour of a working pixel is computed without failure when the
    bitmap is not empty and the kernel can read its weights. *)
Lemma ApplyBitmapFilter_pixel_defined Bitmap Size Filter X Y :
  Bitmap <> [] -> readable_kernel Filter ->
  exists c, ApplyBitmapFilter_pixel Bitmap Size Filter X Y = Some c.
Proof.
  intros HB HF. apply Num_pos_iff in HB. unfold readable_kernel in HF.
  unfold ApplyBitmapFilter_pixel.
  assert (Halpha : exists al,
             (if EFilterColourChannel.eqb (FBitmapFilter.ColourChannel Filter)
                                          EFilterColourChannel.RGBA
              then p <- TArray.get Bitmap (pixelIndex Bitmap Size X Y) ;; Some (FColor.A p)
              else Some 255) = Some al).
  { destruct (EFilterColourChannel.eqb _ _); [| eauto].
    unfold pixelIndex. destruct (clamped_read Bitmap (int32 (int32 (Y * FImageSize.X Size) + X)) HB)
      as [p Ep].
    rewrite Ep. simpl. eauto. }
  destruct Halpha as [al ->]. cbn [bind].
  match goal with
  | |- context [for_upto ?h ?body ?s] =>
      destruct (for_upto_invariant (fun _ _ => True) body h s) as [t [Et _]]
  end.
  - exact I.
  - intros filterY acc HfY _.
    match goal with
    | |- context [for_upto ?h ?body ?s] =>
        destruct (for_upto_invariant (fun _ _ => True) body h s) as [t [Et _]]
    end.
    + exact I.
    + intros filterX [[tempRed tempGreen] tempBlue] HfX _.
      assert (HF' : 0 < TArray.Num (FBitmapFilter.Filter Filter)).
      { destruct HF as [HF | [HF | HF]]; [apply Num_pos_iff; assumption | lia | lia]. }
      match goal with
      | |- context [TArray.get Bitmap ?i] =>
          match i with
          | FMath.Clamp Z.ltb ?v _ _ => destruct (clamped_read Bitmap v HB) as [n En]
          end
      end.
      match goal with
      | |- context [TArray.get (FBitmapFilter.Filter Filter) ?i] =>
          match i with
          | FMath.Clamp Z.ltb ?v _ _ =>
              destruct (clamped_read (FBitmapFilter.Filter Filter) v HF') as [w Ew]
          end
      end.
      rewrite En, Ew. cbn [bind]. eauto.
    + eauto.
  - rewrite Et. cbn [bind]. destruct t as [[tempRed tempGreen] tempBlue]. eauto.
Qed.

(** The store of the working pixel [(X, Y)] lands at the end of the output
    when the bitmap has exactly [Size.X * Size.Y] pixels. *)
Lemma pixelIndex_flat Bitmap Size X Y :
  TArray.Num Bitmap = FImageSize.X Size * FImageSize.Y Size ->
  TArray.Num Bitmap <= INT32_MAX ->
  0 <= X < FImageSize.X Size -> 0 <= Y < FImageSize.Y Size ->
  pixelIndex Bitmap Size X Y = Y * FImageSize.X Size + X.
Proof.
  intros HN Hmax HX HY. unfold pixelIndex.
  assert (Hk : 0 <= Y * FImageSize.X Size + X < TArray.Num Bitmap) by nia.
  assert (H0 : 0 <= Y * FImageSize.X Size) by nia.
  unfold INT32_MAX in Hmax.
  rewrite (int32_id (Y * FImageSize.X Size)) by (unfold INT32_MIN, INT32_MAX; lia).
  rewrite int32_id by (unfold INT32_MIN, INT32_MAX; lia).
  apply Clamp_int_id. lia.
Qed.

(** The output of [ApplyBitmapFilter] is built in row-major order: each
    working pixel is stored at the end of the output built so far. *)
Lemma ApplyBitmapFilter_row_major (Bitmap : list FColor.t) (Size : FImageSize.t)
        (Filter : FBitmapFilter.t) :
  0 < FImageSize.X Size -> 0 < FImageSize.Y Size ->
  TArray.Num Bitmap = FImageSize.X Size * FImageSize.Y Size ->
  TArray.Num Bitmap <= INT32_MAX ->
  readable_kernel Filter ->
  exists Out,
    ApplyBitmapFilter Bitmap Size Filter = Some Out /\
    TArray.Num Out = FImageSize.X Size * FImageSize.Y Size /\
    forall x y, 0 <= x < FImageSize.X Size -> 0 <= y < FImageSize.Y Size ->
      exists c, ApplyBitmapFilter_pixel Bitmap Size Filter x y = Some c /\
                TArray.get Out (y * FImageSize.X Size + x) = Some c.
Proof.
  intros HX HY HN Hmax HF.
  set (SX := FImageSize.X Size) in *. set (SY := FImageSize.Y Size) in *.
  assert (HB : Bitmap <> []) by (apply Num_pos_iff; nia).
  set (Inv := fun (k : Z) (Out : list FColor.t) =>
                TArray.Num Out = k /\
                forall x y, 0 <= x < SX -> 0 <= y -> y * SX + x < k ->
                  TArray.get Out (y * SX + x) = ApplyBitmapFilter_pixel Bitmap Size Filter x y).
  assert (Hstep : forall X Y Out, 0 <= X < SX -> 0 <= Y < SY -> Inv (Y * SX + X) Out ->
            exists Out',
              (c <- ApplyBitmapFilter_pixel Bitmap Size Filter X Y ;;
               TArray.EmplaceAt Out (pixelIndex Bitmap Size X Y) c) = Some Out' /\
              Inv (Y * SX + (X + 1)) Out').
  { intros X Y Out HXr HYr [HNum Hcont].
    destruct (ApplyBitmapFilter_pixel_defined Bitmap Size Filter X Y HB HF) as [c Ec].
    rewrite Ec. cbn [bind].
    rewrite pixelIndex_flat by assumption. fold SX. rewrite <- HNum, EmplaceAt_end.
    eexists. split; [reflexivity |]. split.
    - rewrite Num_Add. lia.
    - intros x y Hx Hy Hlt.
      destruct (Z.eq_dec (y * SX + x) (Y * SX + X)) as [Heq | Hne].
      + assert (y = Y) by nia. subst y. assert (x = X) by lia. subst x.
        rewrite <- HNum at 1. rewrite get_Add_new. symmetry. assumption.
      + rewrite get_Add_old by nia. apply Hcont; lia. }
  unfold ApplyBitmapFilter. fold SX SY.
  destruct (for_upto_invariant (fun Y Out => Inv (Y * SX) Out)
              (fun Y OutBitmap =>
                 for_upto SX
                   (fun X OutBitmap0 =>
                      c <- ApplyBitmapFilter_pixel Bitmap Size Filter X Y ;;
                      TArray.EmplaceAt OutBitmap0 (pixelIndex Bitmap Size X Y) c)
                   OutBitmap)
              SY []) as [Out [E [HNum Hcont]]].
  - split; [reflexivity |]. intros x y Hx Hy Hlt. nia.
  - intros Y Out HYr HInv.
    destruct (for_upto_invariant (fun X Out => Inv (Y * SX + X) Out)
                (fun X OutBitmap0 =>
                   c <- ApplyBitmapFilter_pixel Bitmap Size Filter X Y ;;
                   TArray.EmplaceAt OutBitmap0 (pixelIndex Bitmap Size X Y) c)
                SX Out) as [Out' [E' HInv']].
    + rewrite Z.add_0_r. assumption.
    + intros X Out0 HXr HInv0. apply Hstep; assumption.
    + exists Out'. split; [assumption |].
      replace ((Y + 1) * SX) with (Y * SX + Z.max 0 SX) by lia. assumption.
  - exists Out. split; [assumption |]. split; [lia |].
    intros x y Hx Hy.
    destruct (ApplyBitmapFilter_pixel_defined Bitmap Size Filter x y HB HF) as [c Ec].
    exists c. split; [assumption |]. rewrite <- Ec. apply Hcont; nia.
Qed.

(** ** The box blur of a flat field *)

Lemma get_repeat_in_range {T : Type} (x : T) (n : nat) (j : Z) :
  0 <= j < Z.of_nat n -> TArray.get (repeat x n) j = Some x.
Proof.
  intros Hj. destruct (get_in_range (repeat x n) j) as [y Ey].
  - rewrite Num_repeat. assumption.
  - rewrite Ey. f_equal. eapply get_repeat. eassumption.
Qed.

(** Every clamped read of a uniform bitmap gives its colour. *)
Lemma flat_read (c : FColor.t) (n : nat) (v : Z) :
  (0 < n)%nat ->
  TArray.get (repeat c n) (FMath.Clamp Z.ltb v 0 (TArray.Num (repeat c n) - 1)) = Some c.
Proof.
  intros Hn. destruct (clamped_read (repeat c n) v) as [y Ey].
  - rewrite Num_repeat. lia.
  - rewrite Ey. f_equal. eapply get_repeat. eassumption.
Qed.

(** Every cell of the 3x3 kernel reads the weight 1. *)
Lemma BoxBlur_weight (filterY filterX : Z) :
  0 <= filterY < 3 -> 0 <= filterX < 3 ->
  TArray.get (map F32.of_int [1; 1; 1; 1; 1; 1; 1; 1; 1])
    (FMath.Clamp Z.ltb (int32 (int32 (filterY * 3) + filterX)) 0
       (TArray.Num (map F32.of_int [1; 1; 1; 1; 1; 1; 1; 1; 1]) - 1))
  = Some (F32.of_int 1).
Proof.
  intros HY HX.
  assert (Y3 : filterY = 0 \/ filterY = 1 \/ filterY = 2) by lia.
  assert (X3 : filterX = 0 \/ filterX = 1 \/ filterX = 2) by lia.
  destruct Y3 as [-> | [-> | ->]]; destruct X3 as [-> | [-> | ->]]; reflexivity.
Qed.

Lemma iter_next {T : Type} (f : T -> T) (x : T) (k : Z) :
  0 <= k -> Nat.iter (Z.to_nat (k + 1)) f x = f (Nat.iter (Z.to_nat k) f x).
Proof.
  intros Hk. rewrite Z2Nat.inj_add by lia. rewrite Nat.add_comm. reflexivity.
Qed.

(** On a uniform bitmap the colour computed for any working pixel is the
    nine-step accumulation of each colour channel, with the alpha of the
    bitmap. *)
Lemma BoxBlur_pixel_flat (c : FColor.t) (n : nat) (Size : FImageSize.t) (X Y : Z) :
  (0 < n)%nat ->
  ApplyBitmapFilter_pixel (repeat c n) Size
                          (GetBitmapFilter BoxBlur false EFilterColourChannel.RGBA) X Y
  = Some (FColor.make (BoxBlur_channel (FColor.R c)) (BoxBlur_channel (FColor.G c))
                      (BoxBlur_channel (FColor.B c)) (FColor.A c)).
Proof.
  intros Hn. unfold ApplyBitmapFilter_pixel.
  cbn [GetBitmapFilter FBitmapFilter.Size FBitmapFilter.Filter FBitmapFilter.Factor
       FBitmapFilter.Bias FBitmapFilter.ColourChannel FImageSize.X FImageSize.Y
       EFilterColourChannel.eqb].
  unfold pixelIndex. rewrite (flat_read c n _ Hn). cbn [bind].
  set (step := fun ch temp =>
                 accumulate temp ch (F32.of_int 1) (F32.lit 11111111 100000000) F32.zero).
  set (triple := fun k : Z =>
                   (Nat.iter (Z.to_nat k) (step (FColor.R c)) 0,
                    Nat.iter (Z.to_nat k) (step (FColor.G c)) 0,
                    Nat.iter (Z.to_nat k) (step (FColor.B c)) 0)).
  match goal with
  | |- context [for_upto 3 ?body ?s] =>
      destruct (for_upto_invariant (fun filterY acc => acc = triple (3 * filterY)) body 3 s)
        as [t [Et Ht]]
  end.
  - reflexivity.
  - intros filterY acc HfY ->.
    match goal with
    | |- context [for_upto 3 ?body ?s] =>
        destruct (for_upto_invariant
                    (fun filterX acc => acc = triple (3 * filterY + filterX)) body 3 s)
          as [t [Et Ht]]
    end.
    + rewrite Z.add_0_r. reflexivity.
    + intros filterX acc HfX ->. unfold triple at 1.
      rewrite (flat_read c n _ Hn), (BoxBlur_weight filterY filterX HfY HfX).
      cbn [bind]. eexists. split; [reflexivity |].
      unfold triple. rewrite Z.add_assoc, !iter_next by lia. reflexivity.
    + exists t. split; [assumption |]. rewrite Ht. f_equal. lia.
  - rewrite Et, Ht. change (3 * Z.max 0 3) with 9.
    unfold triple. change (Z.to_nat 9) with 9%nat. cbn [bind].
    unfold SetPixelColourChannel, BoxBlur_channel, step.
    cbn [FColor.R FColor.G FColor.B FColor.A]. reflexivity.
Qed.

(** The accumulation keeps the integer part of [c/9] at each step. *)
Lemma BoxBlur_channel_value (c : Z) :
  FColor.channel_ok c = true -> BoxBlur_channel c = 9 * (c / 9).
Proof.
  intros Hc. apply Z.eqb_eq.
  apply (channel_cases (fun c => BoxBlur_channel c =? 9 * (c / 9))); [| assumption].
  vm_compute. reflexivity.
Qed.

(** C6. The box blur of [GetBitmapFilter] does not keep a flat field: the
    uniform bitmap of colour (r, g, b, a), of any positive width and height,
    comes back as the uniform bitmap of colour
    (9*(r/9), 9*(g/9), 9*(b/9), a), because each of the nine kernel steps
    stores the running sum back into a [uint8] accumulator and drops the
    fraction of c/9. The colour survives only when r, g and b are multiples
    of 9; white becomes (252,252,252,255). *)
Theorem BoxBlur_flat_field_darkens (c : FColor.t) (W H : Z) :
  FColor.wf c = true -> 0 < W -> 0 < H -> W * H <= INT32_MAX ->
  ApplyBitmapFilter (repeat c (Z.to_nat (W * H))) (FImageSize.make W H)
                    (GetBitmapFilter BoxBlur false EFilterColourChannel.RGBA)
  = Some (repeat (FColor.make (9 * (FColor.R c / 9)) (9 * (FColor.G c / 9))
                              (9 * (FColor.B c / 9)) (FColor.A c))
                 (Z.to_nat (W * H))).
Proof.
  intros Hwf HW HH Hmax.
  destruct (wf_channels c Hwf) as [HR [HG [HB _]]].
  assert (Hn : (0 < Z.to_nat (W * H))%nat) by nia.
  destruct (ApplyBitmapFilter_row_major
              (repeat c (Z.to_nat (W * H))) (FImageSize.make W H)
              (GetBitmapFilter BoxBlur false EFilterColourChannel.RGBA))
    as [Out [E [HNum Hpix]]]; cbn [FImageSize.X FImageSize.Y].
  - assumption.
  - assumption.
  - rewrite Num_repeat. lia.
  - rewrite Num_repeat. lia.
  - left. simpl. discriminate.
  - cbn [FImageSize.X FImageSize.Y] in HNum, Hpix.
    rewrite E. f_equal. apply get_ext. intros j.
    destruct (Z_lt_dec j 0) as [Hneg | Hpos];
      [| destruct (Z_lt_dec j (W * H)) as [Hlt | Hge]].
    + transitivity (@None FColor.t); [| symmetry]; apply get_None_iff; lia.
    + rewrite get_repeat_in_range by lia.
      assert (Hj : j = j / W * W + j mod W) by (rewrite Z.mul_comm; apply Z.div_mod; lia).
      assert (Hx : 0 <= j mod W < W) by (apply Z.mod_pos_bound; lia).
      assert (Hy : 0 <= j / W < H).
      { split; [apply Z.div_pos; lia | apply Z.div_lt_upper_bound; lia]. }
      destruct (Hpix (j mod W) (j / W) Hx Hy) as [c0 [Ec0 Eg]].
      rewrite <- Hj in Eg. rewrite Eg. rewrite BoxBlur_pixel_flat in Ec0 by assumption.
      injection Ec0 as <-. rewrite !BoxBlur_channel_value by assumption. reflexivity.
    + transitivity (@None FColor.t); [| symmetry]; apply get_None_iff;
        rewrite ?Num_repeat; lia.
Qed.

Lemma BoxBlur_flat_field_darkens_witness :
  ApplyBitmapFilter [white] (FImageSize.make 1 1)
                    (GetBitmapFilter BoxBlur false EFilterColourChannel.RGBA)
  = Some [FColor.make 252 252 252 255].
Proof.
  apply (BoxBlur_flat_field_darkens white 1 1).
  - reflexivity.
  - reflexivity.
  - reflexivity.
  - vm_compute. discriminate.
Defined.

Example BoxBlur_flat_2x2_darkens :
  ApplyBitmapFilter (repeat (FColor.make 100 9 0 7) 4) (FImageSize.make 2 2)
                    (GetBitmapFilter BoxBlur false EFilterColourChannel.RGBA)
  = Some (repeat (FColor.make 99 9 0 7) 4).
Proof. vm_compute. reflexivity. Qed.

(** With no weight to read, the first kernel cell of the first working pixel
    already fails, whatever the bitmap. *)
Lemma ApplyBitmapFilter_without_weights (Bitmap : list FColor.t) (Size : FImageSize.t)
      (Filter : FBitmapFilter.t) :
  0 < FImageSize.X Size -> 0 < FImageSize.Y Size ->
  FBitmapFilter.Filter Filter = [] ->
  0 < FImageSize.X (FBitmapFilter.Size Filter) ->
  0 < FImageSize.Y (FBitmapFilter.Size Filter) ->
  ApplyBitmapFilter Bitmap Size Filter = None.
Proof.
  intros HX HY HF HfW HfH.
  assert (Hpix : ApplyBitmapFilter_pixel Bitmap Size Filter 0 0 = None).
  { unfold ApplyBitmapFilter_pixel.
    match goal with
    | |- bind ?al _ = None => destruct al as [tempAlpha |]; [| reflexivity]
    end.
    cbn [bind].
    match goal with
    | |- bind ?loops _ = None => assert (Hloops : loops = None); [| rewrite Hloops; reflexivity]
    end.
    apply for_upto_first_fails; [assumption |].
    apply for_upto_first_fails; [assumption |].
    rewrite HF, get_nil.
    match goal with
    | |- bind ?rd _ = None => destruct rd; reflexivity
    end. }
  unfold ApplyBitmapFilter.
  apply for_upto_first_fails; [assumption |].
  apply for_upto_first_fails; [assumption |].
  rewrite Hpix. reflexivity.
Qed.

(** C10. For a bitmap of exactly [Size.X * Size.Y] pixels, with
    [Size.X > 0] and [Size.Y > 0], and a filter whose weight list is empty
    and whose kernel has a positive width and height, [ApplyBitmapFilter]
    returns no bitmap, hence not one of [Size.X * Size.Y] pixels: the read
    of the first weight is out of range. (For every filter that reads its
    weights in range the output has [Size.X * Size.Y] pixels in row-major
    order: lemma [ApplyBitmapFilter_row_major].) *)
Theorem ApplyBitmapFilter_layout_fails_without_weights (Bitmap : list FColor.t)
        (Size : FImageSize.t) (Filter : FBitmapFilter.t) :
  0 < FImageSize.X Size -> 0 < FImageSize.Y Size ->
  TArray.Num Bitmap = FImageSize.X Size * FImageSize.Y Size ->
  FBitmapFilter.Filter Filter = [] ->
  0 < FImageSize.X (FBitmapFilter.Size Filter) ->
  0 < FImageSize.Y (FBitmapFilter.Size Filter) ->
  ~ exists Out,
      ApplyBitmapFilter Bitmap Size Filter = Some Out /\
      TArray.Num Out = FImageSize.X Size * FImageSize.Y Size.
Proof.
  intros HX HY _ HF HfW HfH [Out [E _]].
  rewrite (ApplyBitmapFilter_without_weights Bitmap Size Filter HX HY HF HfW HfH) in E.
  discriminate.
Qed.

Lemma ApplyBitmapFilter_layout_fails_without_weights_witness :
  ~ exists Out,
      ApplyBitmapFilter [FColor.make 10 20 30 40; FColor.make 50 60 70 80;
                         FColor.make 1 2 3 4; FColor.make 5 6 7 8]
                        (FImageSize.make 2 2)
                        (FBitmapFilter.make (FImageSize.make 3 3) [] F32.one F32.zero
                                            EFilterColourChannel.RGBA) = Some Out /\
      TArray.Num Out = 2 * 2.
Proof.
  apply (ApplyBitmapFilter_layout_fails_without_weights
           [FColor.make 10 20 30 40; FColor.make 50 60 70 80;
            FColor.make 1 2 3 4; FColor.make 5 6 7 8]
           (FImageSize.make 2 2)
           (FBitmapFilter.make (FImageSize.make 3 3) [] F32.one F32.zero
                               EFilterColourChannel.RGBA)); reflexivity.
Defined.

(** With the identity kernel in place of the empty one, the same 2x2 bitmap
    comes out in row-major order, both rows. *)
Example ApplyBitmapFilter_row_major_2x2 :
  ApplyBitmapFilter [FColor.make 10 20 30 40; FColor.make 50 60 70 80;
                     FColor.make 1 2 3 4; FColor.make 5 6 7 8]
                    (FImageSize.make 2 2)
                    (GetBitmapFilter Identity false EFilterColourChannel.RGBA)
  = Some [FColor.make 10 20 30 40; FColor.make 50 60 70 80;
          FColor.make 1 2 3 4; FColor.make 5 6 7 8].
Proof. vm_compute. reflexivity. Qed.

(** * Further properties *)

(** ** Blends with a constant colour *)

Lemma fill_step {T : Type} (x junk : T) (k m : nat) :
  firstn k (repeat x k ++ repeat junk (Datatypes.S m))
    ++ x :: skipn (Datatypes.S k) (repeat x k ++ repeat junk (Datatypes.S m))
  = repeat x (Datatypes.S k) ++ repeat junk m.
Proof.
  induction k as [| k IH]; [reflexivity |].
  cbn [repeat app firstn skipn]. f_equal. exact IH.
Qed.

(** The fill loop overwrites every element of the uninitialised buffer. *)
Lemma TintBitmap_filled junk BitmapA Tint :
  TintBitmap junk BitmapA Tint
  = Some (repeat (FLinearColor.ToFColor Tint) (length BitmapA)).
Proof.
  unfold TintBitmap, TArray.SetNumUninitialized.
  set (x := FLinearColor.ToFColor Tint). set (n := length BitmapA).
  assert (Hn : Z.to_nat (TArray.Num BitmapA) = n) by (unfold TArray.Num; apply Nat2Z.id).
  rewrite Hn. rewrite Num_repeat.
  destruct (for_upto_invariant
              (fun i T => T = repeat x (Z.to_nat i) ++ repeat junk (n - Z.to_nat i))
              (fun i T => TArray.set T i x) (Z.of_nat n) (repeat junk n))
    as [T [E HT]].
  - simpl. rewrite Nat.sub_0_r. reflexivity.
  - intros i T Hi ->. unfold TArray.set, TArray.Num.
    rewrite length_app, !repeat_length.
    replace (0 <=? i) with true by (symmetry; apply Z.leb_le; lia).
    replace (i <? Z.of_nat (Z.to_nat i + (n - Z.to_nat i))) with true
      by (symmetry; apply Z.ltb_lt; lia).
    cbn [andb]. eexists. split; [reflexivity |].
    replace (n - Z.to_nat i)%nat with (Datatypes.S (n - Z.to_nat (i + 1))) by lia.
    rewrite fill_step. replace (Z.to_nat (i + 1)) with (Datatypes.S (Z.to_nat i)) by lia.
    reflexivity.
  - rewrite E, HT. f_equal.
    replace (Z.to_nat (Z.max 0 (Z.of_nat n))) with n by lia.
    rewrite Nat.sub_diag. apply app_nil_r.
Qed.

Lemma get_In {T : Type} (a : list T) (i : Z) (x : T) : TArray.get a i = Some x -> In x a.
Proof.
  unfold TArray.get. destruct ((0 <=? i) && _); [| discriminate].
  apply nth_error_In.
Qed.

(** A blend against the buffer filled with one pixel [t] is a map. *)
Lemma blend_constant f (t : FColor.t) (BitmapA : list FColor.t) :
  blend f BitmapA (repeat t (length BitmapA)) = Some (map (fun a => f a t) BitmapA).
Proof.
  apply blend_map.
  - rewrite Num_repeat. reflexivity.
  - intros j a b _ Eb. apply get_repeat in Eb. subst b. reflexivity.
Qed.

Lemma tint_blend junk f op BitmapA Tint :
  (forall A B, op A B = blend f A B) ->
  (if 0 <? TArray.Num BitmapA
   then TintBitmap <- TintBitmap junk BitmapA Tint ;; op BitmapA TintBitmap
   else Some [])
  = Some (map (fun a => f a (FLinearColor.ToFColor Tint)) BitmapA).
Proof.
  intros Hop. destruct (0 <? TArray.Num BitmapA) eqn:E.
  - rewrite TintBitmap_filled. cbn [bind]. rewrite Hop. apply blend_constant.
  - apply Z.ltb_ge in E. pose proof (Num_nonneg BitmapA).
    rewrite (Num_zero_nil BitmapA) by lia. reflexivity.
Qed.

(** X1. [Add_ColorBitmap], [Multiply_ColorBitmap] and [Divide_ColorBitmap]
    never fail and never let the uninitialised content of the tint buffer
    through: whatever that content, the result is the bitmap with the pixel
    operation of the blend applied to each pixel and the quantised tint. *)
Theorem tint_blends_are_maps (junk : FColor.t) (BitmapA : list FColor.t)
        (Tint : FLinearColor.t) :
  Add_ColorBitmap junk BitmapA Tint
    = Some (map (fun a => Add_Bitmap_pixel a (FLinearColor.ToFColor Tint)) BitmapA) /\
  Multiply_ColorBitmap junk BitmapA Tint
    = Some (map (fun a => FLinearColor.ToFColor
                            (Multiply_Bitmap_pixel a (FLinearColor.ToFColor Tint)))
                BitmapA) /\
  Divide_ColorBitmap junk BitmapA Tint
    = Some (map (fun a => FLinearColor.ToFColor
                            (Divide_Bitmap_pixel a (FLinearColor.ToFColor Tint)))
                BitmapA).
Proof.
  unfold Add_ColorBitmap, Multiply_ColorBitmap, Divide_ColorBitmap.
  split; [| split].
  - apply (tint_blend junk Add_Bitmap_pixel Add_Bitmap). apply Add_Bitmap_blend.
  - apply (tint_blend junk (fun a b => FLinearColor.ToFColor (Multiply_Bitmap_pixel a b))
                      Multiply_Bitmap).
    apply Multiply_Bitmap_blend.
  - apply (tint_blend junk (fun a b => FLinearColor.ToFColor (Divide_Bitmap_pixel a b))
                      Divide_Bitmap).
    apply Divide_Bitmap_blend.
Qed.

(** X2. [Add_ColorBitmap] replaces by (0,0,0,0) every pixel whose alpha is
    not the alpha of the quantised tint, and adds the tint, channel by
    channel and saturating at 255, to the pixels whose alpha is. *)
Theorem Add_ColorBitmap_zeroes_other_alphas (junk : FColor.t) (BitmapA : list FColor.t)
        (Tint : FLinearColor.t) :
  Add_ColorBitmap junk BitmapA Tint
  = Some (map (fun a =>
                 if FColor.A a =? FColor.A (FLinearColor.ToFColor Tint)
                 then FColor.add_assign a (FLinearColor.ToFColor Tint)
                 else FColor.make 0 0 0 0)
              BitmapA).
Proof.
  unfold Add_ColorBitmap.
  rewrite (tint_blend junk Add_Bitmap_pixel Add_Bitmap) by apply Add_Bitmap_blend.
  f_equal. apply map_ext. intros a.
  unfold Add_Bitmap_pixel, Add_Bitmap_special_case.
  destruct (FColor.A a =? FColor.A (FLinearColor.ToFColor Tint)); reflexivity.
Qed.

(** ** Algebra of [Multiply_Bitmap] and [Divide_Bitmap] *)

Lemma F32_mul_comm (x y : F32.t) : F32.mul x y = F32.mul y x.
Proof.
  unfold F32.mul.
  destruct x as [sx | sx | | sx mx ex], y as [sy | sy | | sy my ey];
    cbn [SFmul]; rewrite ?(xorb_comm sy sx); try reflexivity.
  rewrite (Pos.mul_comm my mx), (Z.add_comm ey ex). reflexivity.
Qed.

Lemma Multiply_Bitmap_pixel_comm a b : Multiply_Bitmap_pixel a b = Multiply_Bitmap_pixel b a.
Proof.
  unfold Multiply_Bitmap_pixel.
  rewrite (F32_mul_comm (FLinearColor.R (FLinearColor.of_FColor b))),
          (F32_mul_comm (FLinearColor.G (FLinearColor.of_FColor b))),
          (F32_mul_comm (FLinearColor.B (FLinearColor.of_FColor b))),
          (F32_mul_comm (FLinearColor.A (FLinearColor.of_FColor b))).
  reflexivity.
Qed.

Lemma blend_comm f A B : (forall a b, f a b = f b a) -> blend f A B = blend f B A.
Proof.
  intros Hf. unfold blend. rewrite (andb_comm (0 <? TArray.Num B)).
  destruct ((0 <? TArray.Num A) && (0 <? TArray.Num B)); [| reflexivity].
  replace (if TArray.Num B <? TArray.Num A then TArray.Num B else TArray.Num A)
    with (if TArray.Num A <? TArray.Num B then TArray.Num A else TArray.Num B).
  - unfold for_upto. apply for_loop_ext. intros i Out.
    destruct (TArray.get A i), (TArray.get B i); cbn [bind]; try reflexivity.
    rewrite Hf. reflexivity.
  - destruct (TArray.Num A <? TArray.Num B) eqn:E1;
      destruct (TArray.Num B <? TArray.Num A) eqn:E2;
      try reflexivity.
    + apply Z.ltb_lt in E1. apply Z.ltb_lt in E2. lia.
    + apply Z.ltb_ge in E1. apply Z.ltb_ge in E2. lia.
Qed.

(** X3. [Multiply_Bitmap] is commutative, for bitmaps of any two lengths. *)
Theorem Multiply_Bitmap_comm (BitmapA BitmapB : list FColor.t) :
  Multiply_Bitmap BitmapA BitmapB = Multiply_Bitmap BitmapB BitmapA.
Proof.
  rewrite !Multiply_Bitmap_blend. apply blend_comm.
  intros a b. rewrite Multiply_Bitmap_pixel_comm. reflexivity.
Qed.

Lemma divide_self_colour c :
  FColor.channel_ok c = true ->
  FLinearColor.quantise
    (FMath.Clamp F32.ltb
       (F32.div (FLinearColor.sRGBToLinearTable c) (FLinearColor.sRGBToLinearTable c))
       F32.zero F32.one) = 255.
Proof.
  intros Hc. apply Z.eqb_eq.
  apply (channel_cases
           (fun c => FLinearColor.quantise
                       (FMath.Clamp F32.ltb
                          (F32.div (FLinearColor.sRGBToLinearTable c)
                                   (FLinearColor.sRGBToLinearTable c))
                          F32.zero F32.one) =? 255)); [| assumption].
  vm_compute. reflexivity.
Qed.

Lemma divide_self_alpha c :
  FColor.channel_ok c = true ->
  FLinearColor.quantise
    (FMath.Clamp F32.ltb
       (F32.div (F32.mul (F32.of_int c) FLinearColor.OneOver255)
                (F32.mul (F32.of_int c) FLinearColor.OneOver255))
       F32.zero F32.one) = 255.
Proof.
  intros Hc. apply Z.eqb_eq.
  apply (channel_cases
           (fun c => FLinearColor.quantise
                       (FMath.Clamp F32.ltb
                          (F32.div (F32.mul (F32.of_int c) FLinearColor.OneOver255)
                                   (F32.mul (F32.of_int c) FLinearColor.OneOver255))
                          F32.zero F32.one) =? 255)); [| assumption].
  vm_compute. reflexivity.
Qed.

(** X4. A bitmap divided by itself is white everywhere, (255,255,255,255),
    also where a channel is 0: x/x is 1, and 0/0 is NaN, which the clamp
    turns into 1. *)
Theorem Divide_Bitmap_self_is_white (BitmapA : list FColor.t) :
  Forall (fun p => FColor.wf p = true) BitmapA ->
  Divide_Bitmap BitmapA BitmapA = Some (map (fun _ => white) BitmapA).
Proof.
  intros Hwf. rewrite Forall_forall in Hwf.
  rewrite Divide_Bitmap_blend. apply blend_map; [reflexivity |].
  intros j a b Ea Eb. rewrite Ea in Eb. injection Eb as <-.
  destruct (wf_channels a (Hwf a (get_In _ _ _ Ea))) as [HR [HG [HB HA]]].
  unfold Divide_Bitmap_pixel, FLinearColor.ToFColor, FLinearColor.of_FColor.
  cbn [FLinearColor.R FLinearColor.G FLinearColor.B FLinearColor.A].
  rewrite !divide_self_colour by assumption.
  rewrite divide_self_alpha by assumption. reflexivity.
Qed.

Lemma Divide_Bitmap_self_is_white_witness :
  Divide_Bitmap [FColor.make 0 10 200 0; FColor.make 255 1 0 77]
                [FColor.make 0 10 200 0; FColor.make 255 1 0 77]
  = Some [white; white].
Proof.
  apply (Divide_Bitmap_self_is_white [FColor.make 0 10 200 0; FColor.make 255 1 0 77]).
  repeat constructor.
Defined.

Lemma multiply_black_colour c :
  FColor.channel_ok c = true ->
  FLinearColor.quantise
    (FMath.Clamp F32.ltb
       (F32.mul (FLinearColor.sRGBToLinearTable c) (FLinearColor.sRGBToLinearTable 0))
       F32.zero F32.one) = 0.
Proof.
  intros Hc. apply Z.eqb_eq.
  apply (channel_cases
           (fun c => FLinearColor.quantise
                       (FMath.Clamp F32.ltb
                          (F32.mul (FLinearColor.sRGBToLinearTable c)
                                   (FLinearColor.sRGBToLinearTable 0))
                          F32.zero F32.one) =? 0)); [| assumption].
  vm_compute. reflexivity.
Qed.

Lemma multiply_black_alpha c :
  FColor.channel_ok c = true ->
  FLinearColor.quantise
    (FMath.Clamp F32.ltb
       (F32.mul (F32.mul (F32.of_int c) FLinearColor.OneOver255)
                (F32.mul (F32.of_int 0) FLinearColor.OneOver255))
       F32.zero F32.one) = 0.
Proof.
  intros Hc. apply Z.eqb_eq.
  apply (channel_cases
           (fun c => FLinearColor.quantise
                       (FMath.Clamp F32.ltb
                          (F32.mul (F32.mul (F32.of_int c) FLinearColor.OneOver255)
                                   (F32.mul (F32.of_int 0) FLinearColor.OneOver255))
                          F32.zero F32.one) =? 0)); [| assumption].
  vm_compute. reflexivity.
Qed.

(** X5. The all-zero buffer absorbs [Multiply_Bitmap]: a bitmap multiplied
    by the all-zero buffer of its length is all zero, alpha included. *)
Theorem Multiply_Bitmap_black_absorbs (BitmapA : list FColor.t) :
  Forall (fun p => FColor.wf p = true) BitmapA ->
  Multiply_Bitmap BitmapA (repeat black (length BitmapA))
  = Some (map (fun _ => black) BitmapA).
Proof.
  intros Hwf. rewrite Forall_forall in Hwf.
  rewrite Multiply_Bitmap_blend. apply blend_map; [rewrite Num_repeat; reflexivity |].
  intros j a b Ea Eb. apply get_repeat in Eb. subst b.
  destruct (wf_channels a (Hwf a (get_In _ _ _ Ea))) as [HR [HG [HB HA]]].
  unfold Multiply_Bitmap_pixel, FLinearColor.ToFColor, FLinearColor.of_FColor.
  cbn [FLinearColor.R FLinearColor.G FLinearColor.B FLinearColor.A
       FColor.R FColor.G FColor.B FColor.A black].
  rewrite !multiply_black_colour by assumption.
  rewrite multiply_black_alpha by assumption. reflexivity.
Qed.

Lemma Multiply_Bitmap_black_absorbs_witness :
  Multiply_Bitmap [FColor.make 255 10 200 255; FColor.make 1 1 0 77] (repeat black 2)
  = Some [black; black].
Proof.
  apply (Multiply_Bitmap_black_absorbs [FColor.make 255 10 200 255; FColor.make 1 1 0 77]).
  repeat constructor.
Defined.

(** ** [ApplyBitmapFilter]: sizes and failures *)

Lemma Clamp_int_le v hi : 0 <= v -> 0 <= hi -> 0 <= FMath.Clamp Z.ltb v 0 hi <= v.
Proof.
  intros Hv Hhi. unfold FMath.Clamp.
  destruct (v <? 0) eqn:E0; [apply Z.ltb_lt in E0; lia |].
  destruct (v <? hi) eqn:E1; [lia |].
  apply Z.ltb_ge in E1. lia.
Qed.

Lemma EmplaceAt_Num {T : Type} (a : list T) (i : Z) (x : T) :
  0 <= i <= TArray.Num a ->
  exists a', TArray.EmplaceAt a i x = Some a' /\ TArray.Num a' = TArray.Num a + 1.
Proof.
  intros Hi. unfold TArray.EmplaceAt.
  replace (0 <=? i) with true by (symmetry; apply Z.leb_le; lia).
  replace (i <=? TArray.Num a) with true by (symmetry; apply Z.leb_le; lia).
  cbn [andb]. eexists. split; [reflexivity |].
  unfold TArray.Num. rewrite length_app. cbn [length].
  rewrite Nat.add_succ_r, <- length_app, firstn_skipn. lia.
Qed.

(** The store index of a working pixel never passes the number of pixels
    stored before it. *)
Lemma pixelIndex_bounds Bitmap Size X Y :
  Bitmap <> [] ->
  FImageSize.X Size * FImageSize.Y Size <= INT32_MAX ->
  0 <= X < FImageSize.X Size -> 0 <= Y < FImageSize.Y Size ->
  0 <= pixelIndex Bitmap Size X Y <= Y * FImageSize.X Size + X.
Proof.
  intros HB Hmax HX HY. apply Num_pos_iff in HB. unfold pixelIndex.
  unfold INT32_MAX in Hmax.
  assert (Hk : 0 <= Y * FImageSize.X Size + X < FImageSize.X Size * FImageSize.Y Size)
    by nia.
  assert (H0 : 0 <= Y * FImageSize.X Size) by nia.
  rewrite (int32_id (Y * FImageSize.X Size)) by (unfold INT32_MIN, INT32_MAX; lia).
  rewrite int32_id by (unfold INT32_MIN, INT32_MAX; lia).
  apply Clamp_int_le; lia.
Qed.

(** Whatever the length of a non-empty bitmap, every working pixel is
    computed and stored. *)
Lemma ApplyBitmapFilter_total Bitmap Size Filter :
  Bitmap <> [] -> readable_kernel Filter ->
  0 < FImageSize.X Size -> 0 < FImageSize.Y Size ->
  FImageSize.X Size * FImageSize.Y Size <= INT32_MAX ->
  exists Out,
    ApplyBitmapFilter Bitmap Size Filter = Some Out /\
    TArray.Num Out = FImageSize.X Size * FImageSize.Y Size.
Proof.
  intros HB HF HX HY Hmax.
  set (SX := FImageSize.X Size) in *. set (SY := FImageSize.Y Size) in *.
  unfold ApplyBitmapFilter. fold SX SY.
  destruct (for_upto_invariant (fun Y Out => TArray.Num Out = Y * SX)
              (fun Y OutBitmap =>
                 for_upto SX
                   (fun X OutBitmap0 =>
                      c <- ApplyBitmapFilter_pixel Bitmap Size Filter X Y ;;
                      TArray.EmplaceAt OutBitmap0 (pixelIndex Bitmap Size X Y) c)
                   OutBitmap)
              SY []) as [Out [E HNum]].
  - reflexivity.
  - intros Y Out HYr HInv.
    destruct (for_upto_invariant (fun X Out => TArray.Num Out = Y * SX + X)
                (fun X OutBitmap0 =>
                   c <- ApplyBitmapFilter_pixel Bitmap Size Filter X Y ;;
                   TArray.EmplaceAt OutBitmap0 (pixelIndex Bitmap Size X Y) c)
                SX Out) as [Out' [E' HInv']].
    + lia.
    + intros X Out0 HXr HInv0.
      destruct (ApplyBitmapFilter_pixel_defined Bitmap Size Filter X Y HB HF) as [c Ec].
      rewrite Ec. cbn [bind].
      pose proof (pixelIndex_bounds Bitmap Size X Y HB Hmax HXr HYr) as Hidx.
      fold SX in Hidx.
      destruct (EmplaceAt_Num Out0 (pixelIndex Bitmap Size X Y) c) as [Out1 [E1 N1]];
        [lia |].
      exists Out1. split; [assumption | lia].
    + exists Out'. split; [assumption | lia].
  - exists Out. split; [assumption | lia].
Qed.

(** X6. Even when the length of a non-empty bitmap does not match
    [Size.X * Size.Y], [ApplyBitmapFilter] does not fail on a kernel that can
    read its weights: it returns exactly [Size.X * Size.Y] pixels. *)
Theorem ApplyBitmapFilter_length_any_bitmap (Bitmap : list FColor.t) (Size : FImageSize.t)
        (Filter : FBitmapFilter.t) :
  Bitmap <> [] -> readable_kernel Filter ->
  0 < FImageSize.X Size -> 0 < FImageSize.Y Size ->
  FImageSize.X Size * FImageSize.Y Size <= INT32_MAX ->
  exists Out,
    ApplyBitmapFilter Bitmap Size Filter = Some Out /\
    TArray.Num Out = FImageSize.X Size * FImageSize.Y Size.
Proof. exact (ApplyBitmapFilter_total Bitmap Size Filter). Qed.

Lemma ApplyBitmapFilter_length_any_bitmap_witness :
  exists Out,
    ApplyBitmapFilter [FColor.make 10 20 30 40] (FImageSize.make 3 2)
                      (GetBitmapFilter Gaussian1 false EFilterColourChannel.RGBA) = Some Out /\
    TArray.Num Out = 3 * 2.
Proof.
  apply (ApplyBitmapFilter_length_any_bitmap
           [FColor.make 10 20 30 40] (FImageSize.make 3 2)
           (GetBitmapFilter Gaussian1 false EFilterColourChannel.RGBA)).
  - discriminate.
  - left. simpl. discriminate.
  - reflexivity.
  - reflexivity.
  - vm_compute. discriminate.
Defined.

(** X7. On the empty bitmap [ApplyBitmapFilter] fails for every filter as
    soon as the size is positive: the index of the first working pixel is
    [Clamp(0, 0, -1) = -1]. *)
Theorem ApplyBitmapFilter_empty_bitmap_fails (Size : FImageSize.t) (Filter : FBitmapFilter.t) :
  0 < FImageSize.X Size -> 0 < FImageSize.Y Size ->
  ApplyBitmapFilter [] Size Filter = None.
Proof.
  intros HX HY. unfold ApplyBitmapFilter.
  apply for_upto_first_fails; [assumption |].
  apply for_upto_first_fails; [assumption |].
  destruct (ApplyBitmapFilter_pixel [] Size Filter 0 0); reflexivity.
Qed.

Lemma ApplyBitmapFilter_empty_bitmap_fails_witness :
  ApplyBitmapFilter [] (FImageSize.make 2 2)
                    (GetBitmapFilter Identity false EFilterColourChannel.RGBA) = None.
Proof.
  apply (ApplyBitmapFilter_empty_bitmap_fails (FImageSize.make 2 2)); reflexivity.
Defined.

(** X8. With a width or a height that is not positive, [ApplyBitmapFilter]
    reads nothing and returns the empty bitmap, whatever the bitmap and the
    filter. *)
Theorem ApplyBitmapFilter_no_size (Bitmap : list FColor.t) (Size : FImageSize.t)
        (Filter : FBitmapFilter.t) :
  FImageSize.X Size <= 0 \/ FImageSize.Y Size <= 0 ->
  ApplyBitmapFilter Bitmap Size Filter = Some [].
Proof.
  intros [HX | HY]; unfold ApplyBitmapFilter.
  - destruct (for_upto_invariant (fun _ Out => Out = @nil FColor.t)
                (fun Y OutBitmap =>
                   for_upto (FImageSize.X Size)
                     (fun X OutBitmap0 =>
                        c <- ApplyBitmapFilter_pixel Bitmap Size Filter X Y ;;
                        TArray.EmplaceAt OutBitmap0 (pixelIndex Bitmap Size X Y) c)
                     OutBitmap)
                (FImageSize.Y Size) []) as [Out [E ->]].
    + reflexivity.
    + intros Y Out _ ->. exists []. split; [| reflexivity].
      unfold for_upto. replace (Z.to_nat (FImageSize.X Size)) with 0%nat by lia.
      reflexivity.
    + exact E.
  - unfold for_upto. replace (Z.to_nat (FImageSize.Y Size)) with 0%nat by lia.
    reflexivity.
Qed.

Lemma ApplyBitmapFilter_no_size_witness :
  ApplyBitmapFilter [white] (FImageSize.make 0 5)
                    (GetBitmapFilter Sharpen false EFilterColourChannel.RGBA) = Some [].
Proof.
  apply (ApplyBitmapFilter_no_size [white] (FImageSize.make 0 5)).
  left. simpl. discriminate.
Defined.

(** X9. Every filter of [GetBitmapFilter] is a well-formed kernel: a square
    of odd side with exactly [Size.X * Size.Y] weights and bias 0; its
    colour channel is the override when one is asked for, RGBA by default
    and greyscale for the edge detection. *)
Theorem GetBitmapFilter_well_formed (BitmapFilter : EBitmapFilterType)
        (OverrideColourChannel : bool) (ColourChannelOverride : EFilterColourChannel.t) :
  let Filter := GetBitmapFilter BitmapFilter OverrideColourChannel ColourChannelOverride in
  TArray.Num (FBitmapFilter.Filter Filter)
    = FImageSize.X (FBitmapFilter.Size Filter) * FImageSize.Y (FBitmapFilter.Size Filter) /\
  FImageSize.X (FBitmapFilter.Size Filter) = FImageSize.Y (FBitmapFilter.Size Filter) /\
  Z.odd (FImageSize.X (FBitmapFilter.Size Filter)) = true /\
  FBitmapFilter.Bias Filter = F32.zero /\
  FBitmapFilter.ColourChannel Filter
    = (if OverrideColourChannel then ColourChannelOverride
       else match BitmapFilter with
            | EdgeDetection => EFilterColourChannel.Greyscale
            | _ => EFilterColourChannel.RGBA
            end) /\
  readable_kernel Filter.
Proof.
  destruct BitmapFilter; cbv zeta; repeat split;
    try (destruct OverrideColourChannel; reflexivity);
    left; cbn [GetBitmapFilter FBitmapFilter.Filter]; discriminate.
Qed.

(** ** [ApplyBitmapFilter]: what each output pixel is made of *)

(** For a bitmap of the right length, a property that links each computed
    colour to the source pixel of its coordinate links the whole output to
    the bitmap. *)
Lemma ApplyBitmapFilter_pointwise {U : Type} (h g : FColor.t -> U)
      (Bitmap : list FColor.t) (Size : FImageSize.t) (Filter : FBitmapFilter.t) :
  0 < FImageSize.X Size -> 0 < FImageSize.Y Size ->
  TArray.Num Bitmap = FImageSize.X Size * FImageSize.Y Size ->
  TArray.Num Bitmap <= INT32_MAX ->
  readable_kernel Filter ->
  (forall x y p c,
      0 <= x < FImageSize.X Size -> 0 <= y < FImageSize.Y Size ->
      TArray.get Bitmap (y * FImageSize.X Size + x) = Some p ->
      ApplyBitmapFilter_pixel Bitmap Size Filter x y = Some c ->
      h c = g p) ->
  exists Out, ApplyBitmapFilter Bitmap Size Filter = Some Out /\ map h Out = map g Bitmap.
Proof.
  intros HX HY HN Hmax HF Hhg.
  destruct (ApplyBitmapFilter_row_major Bitmap Size Filter HX HY HN Hmax HF)
    as [Out [E [HNum Hpix]]].
  set (W := FImageSize.X Size) in *. set (H := FImageSize.Y Size) in *.
  exists Out. split; [assumption |]. apply get_ext. intros j. rewrite !get_map.
  destruct (Z_lt_dec j 0) as [Hneg | Hpos];
    [| destruct (Z_lt_dec j (W * H)) as [Hlt | Hge]].
  - replace (TArray.get Out j) with (@None FColor.t)
      by (symmetry; apply get_None_iff; lia).
    replace (TArray.get Bitmap j) with (@None FColor.t)
      by (symmetry; apply get_None_iff; lia).
    reflexivity.
  - assert (Hj : j = j / W * W + j mod W) by (rewrite Z.mul_comm; apply Z.div_mod; lia).
    assert (Hx : 0 <= j mod W < W) by (apply Z.mod_pos_bound; lia).
    assert (Hy : 0 <= j / W < H).
    { split; [apply Z.div_pos; lia | apply Z.div_lt_upper_bound; lia]. }
    destruct (Hpix (j mod W) (j / W) Hx Hy) as [c [Ec Eg]].
    destruct (get_in_range Bitmap j) as [p Ep]; [lia |].
    rewrite <- Hj in Eg. rewrite Eg, Ep. cbn [option_map]. f_equal.
    apply (Hhg (j mod W) (j / W)); try assumption.
    rewrite <- Hj. assumption.
  - replace (TArray.get Out j) with (@None FColor.t)
      by (symmetry; apply get_None_iff; lia).
    replace (TArray.get Bitmap j) with (@None FColor.t)
      by (symmetry; apply get_None_iff; lia).
    reflexivity.
Qed.

(** The colour computed for a working pixel is [SetPixelColourChannel] of
    some accumulated colour and of the working alpha of its source pixel. *)
Lemma ApplyBitmapFilter_pixel_shape Bitmap Size Filter X Y p c :
  TArray.get Bitmap (pixelIndex Bitmap Size X Y) = Some p ->
  ApplyBitmapFilter_pixel Bitmap Size Filter X Y = Some c ->
  exists r g b,
    c = SetPixelColourChannel
          (FColor.make r g b (working_alpha (FBitmapFilter.ColourChannel Filter) p))
          (FBitmapFilter.ColourChannel Filter).
Proof.
  intros Hp. unfold ApplyBitmapFilter_pixel, working_alpha. rewrite Hp.
  destruct (EFilterColourChannel.eqb (FBitmapFilter.ColourChannel Filter)
                                     EFilterColourChannel.RGBA);
    cbn [bind];
    match goal with
    | |- bind ?loops _ = Some c -> _ => destruct loops as [[[r g] b] |]
    end; cbn [bind]; intros Hc; try discriminate;
    injection Hc as <-; exists r, g, b; reflexivity.
Qed.

(** X10. For a bitmap of the right length, the alpha of each output pixel of
    [ApplyBitmapFilter] depends only on the colour channel of the filter: it
    is the alpha of the source pixel on RGBA, 0 on the channel A and 255 on
    every other channel, RGB included. *)
Theorem ApplyBitmapFilter_alpha (Bitmap : list FColor.t) (Size : FImageSize.t)
        (Filter : FBitmapFilter.t) :
  0 < FImageSize.X Size -> 0 < FImageSize.Y Size ->
  TArray.Num Bitmap = FImageSize.X Size * FImageSize.Y Size ->
  TArray.Num Bitmap <= INT32_MAX ->
  readable_kernel Filter ->
  exists Out,
    ApplyBitmapFilter Bitmap Size Filter = Some Out /\
    map FColor.A Out = map (filtered_alpha (FBitmapFilter.ColourChannel Filter)) Bitmap.
Proof.
  intros HX HY HN Hmax HF.
  apply ApplyBitmapFilter_pointwise; try assumption.
  intros x y p c Hx Hy Hp Hc.
  rewrite <- (pixelIndex_flat Bitmap Size x y HN Hmax Hx Hy) in Hp.
  destruct (ApplyBitmapFilter_pixel_shape _ _ _ _ _ _ _ Hp Hc) as [r [g [b ->]]].
  unfold working_alpha, filtered_alpha.
  destruct (FBitmapFilter.ColourChannel Filter); reflexivity.
Qed.

Lemma ApplyBitmapFilter_alpha_witness :
  exists Out,
    ApplyBitmapFilter [FColor.make 10 20 30 40; FColor.make 50 60 70 80]
                      (FImageSize.make 2 1)
                      (GetBitmapFilter Gaussian1 true EFilterColourChannel.RGB) = Some Out /\
    map FColor.A Out = [255; 255].
Proof.
  apply (ApplyBitmapFilter_alpha
           [FColor.make 10 20 30 40; FColor.make 50 60 70 80] (FImageSize.make 2 1)
           (GetBitmapFilter Gaussian1 true EFilterColourChannel.RGB)).
  - reflexivity.
  - reflexivity.
  - reflexivity.
  - vm_compute. discriminate.
  - left. simpl. discriminate.
Defined.

(** X11. On the channel A, [ApplyBitmapFilter] ignores the bitmap and the
    weights: every output pixel is (255,255,255,0), because the working
    alpha is 255 on every channel but RGBA. *)
Theorem ApplyBitmapFilter_channel_A_constant (Bitmap : list FColor.t) (Size : FImageSize.t)
        (Filter : FBitmapFilter.t) :
  0 < FImageSize.X Size -> 0 < FImageSize.Y Size ->
  TArray.Num Bitmap = FImageSize.X Size * FImageSize.Y Size ->
  TArray.Num Bitmap <= INT32_MAX ->
  readable_kernel Filter ->
  FBitmapFilter.ColourChannel Filter = EFilterColourChannel.A ->
  ApplyBitmapFilter Bitmap Size Filter
  = Some (map (fun _ => FColor.make 255 255 255 0) Bitmap).
Proof.
  intros HX HY HN Hmax HF Hcc.
  destruct (ApplyBitmapFilter_pointwise (fun c => c) (fun _ => FColor.make 255 255 255 0)
              Bitmap Size Filter HX HY HN Hmax HF) as [Out [E HOut]].
  - intros x y p c Hx Hy Hp Hc.
    rewrite <- (pixelIndex_flat Bitmap Size x y HN Hmax Hx Hy) in Hp.
    destruct (ApplyBitmapFilter_pixel_shape _ _ _ _ _ _ _ Hp Hc) as [r [g [b ->]]].
    rewrite Hcc. reflexivity.
  - rewrite map_id in HOut. rewrite E, HOut. reflexivity.
Qed.

Lemma ApplyBitmapFilter_channel_A_constant_witness :
  ApplyBitmapFilter [FColor.make 10 20 30 40; FColor.make 50 60 70 80]
                    (FImageSize.make 1 2)
                    (GetBitmapFilter BoxBlur true EFilterColourChannel.A)
  = Some [FColor.make 255 255 255 0; FColor.make 255 255 255 0].
Proof.
  apply (ApplyBitmapFilter_channel_A_constant
           [FColor.make 10 20 30 40; FColor.make 50 60 70 80] (FImageSize.make 1 2)
           (GetBitmapFilter BoxBlur true EFilterColourChannel.A)).
  - reflexivity.
  - reflexivity.
  - reflexivity.
  - vm_compute. discriminate.
  - left. simpl. discriminate.
  - reflexivity.
Defined.

(** ** The identity kernel *)















(** ** [SetPixelColourChannel] *)

(** X14. The greyscale of a pixel that is already grey is one level darker:
    (g,g,g,a) becomes (g-1,g-1,g-1,255) for g > 0, so white becomes
    (254,254,254,255). The three weights add up to 0.9999 and the sum is
    truncated. *)
Theorem Greyscale_of_grey_darkens (g a : Z) :
  FColor.channel_ok g = true ->
  SetPixelColourChannel (FColor.make g g g a) EFilterColourChannel.Greyscale
  = FColor.make (Z.max 0 (g - 1)) (Z.max 0 (g - 1)) (Z.max 0 (g - 1)) 255.
Proof.
  intros Hg.
  assert (H : FColor.R (SetPixelColourChannel (FColor.make g g g 0)
                                              EFilterColourChannel.Greyscale)
              = Z.max 0 (g - 1)).
  { apply Z.eqb_eq.
    apply (channel_cases
             (fun g => FColor.R (SetPixelColourChannel (FColor.make g g g 0)
                                                       EFilterColourChannel.Greyscale)
                       =? Z.max 0 (g - 1))); [| assumption].
    vm_compute. reflexivity. }
  unfold SetPixelColourChannel in *. cbn [FColor.R FColor.G FColor.B FColor.A] in *.
  rewrite H. reflexivity.
Qed.

Lemma Greyscale_of_grey_darkens_witness :
  SetPixelColourChannel white EFilterColourChannel.Greyscale
  = FColor.make 254 254 254 255.
Proof. apply (Greyscale_of_grey_darkens 255 255). reflexivity. Defined.

(** ** Image formats *)

(** X15. The two conversions between [EImageFormat] and [EImageIOFormat] are
    inverse of each other, and each yields [Invalid] for [Invalid] only. *)
Theorem image_format_round_trip :
  (forall f, EImageIOFormatToEImageFormat (EImageFormatToEImageIOFormat f) = f) /\
  (forall f, EImageFormatToEImageIOFormat (EImageIOFormatToEImageFormat f) = f) /\
  (forall f, EImageFormatToEImageIOFormat f = EImageIOFormat.Invalid
             <-> f = EImageFormat.Invalid) /\
  (forall f, EImageIOFormatToEImageFormat f = EImageFormat.Invalid
             <-> f = EImageIOFormat.Invalid).
Proof.
  repeat split; try (destruct f; reflexivity);
    destruct f; cbn; intros H; try reflexivity; discriminate.
Qed.

(** ** The ends of the brightness and contrast ranges *)

Lemma brightness_channel_ends c :
  FColor.channel_ok c = true ->
  brightness_channel (F32.of_int 0) c = 0 /\ brightness_channel (F32.of_int 2) c = 255.
Proof.
  intros Hc. split; apply Z.eqb_eq.
  - apply (channel_cases (fun c => brightness_channel (F32.of_int 0) c =? 0));
      [| assumption].
    vm_compute. reflexivity.
  - apply (channel_cases (fun c => brightness_channel (F32.of_int 2) c =? 255));
      [| assumption].
    vm_compute. reflexivity.
Qed.

Lemma contrast_channel_ends c :
  FColor.channel_ok c = true ->
  contrast_channel (F32.of_int 0) c = 128 /\
  contrast_channel (F32.of_int 2) c = contrast_threshold c.
Proof.
  intros Hc. split; apply Z.eqb_eq.
  - apply (channel_cases (fun c => contrast_channel (F32.of_int 0) c =? 128));
      [| assumption].
    vm_compute. reflexivity.
  - apply (channel_cases
             (fun c => contrast_channel (F32.of_int 2) c =? contrast_threshold c));
      [| assumption].
    vm_compute. reflexivity.
Qed.

(** X16. At brightness 0 [SetBitmapBrightness] returns opaque black for
    every pixel, and at brightness 2 opaque white. *)
Theorem SetBitmapBrightness_ends (Bitmap : list FColor.t) :
  Forall (fun p => FColor.wf p = true) Bitmap ->
  SetBitmapBrightness Bitmap (F32.of_int 0) = map (fun _ => FColor.make 0 0 0 255) Bitmap /\
  SetBitmapBrightness Bitmap (F32.of_int 2) = map (fun _ => white) Bitmap.
Proof.
  intros Hwf. rewrite Forall_forall in Hwf. rewrite !SetBitmapBrightness_map.
  split; apply map_ext_in; intros p Hp;
    destruct (wf_channels p (Hwf p Hp)) as [HR [HG [HB _]]];
    destruct (brightness_channel_ends _ HR) as [R0 R2];
    destruct (brightness_channel_ends _ HG) as [G0 G2];
    destruct (brightness_channel_ends _ HB) as [B0 B2].
  - rewrite R0, G0, B0. reflexivity.
  - rewrite R2, G2, B2. reflexivity.
Qed.

Lemma SetBitmapBrightness_ends_witness :
  SetBitmapBrightness [FColor.make 10 20 30 40] (F32.of_int 0) = [FColor.make 0 0 0 255] /\
  SetBitmapBrightness [FColor.make 10 20 30 40] (F32.of_int 2) = [white].
Proof.
  apply (SetBitmapBrightness_ends [FColor.make 10 20 30 40]). repeat constructor.
Defined.

(** X17. At contrast 0 [SetBitmapContrast] returns the opaque mid-grey
    (128,128,128,255) for every pixel; at contrast 2 it is a threshold: each
    colour channel below 128 becomes 0, each one above 128 becomes 255, and
    128 stays. *)
Theorem SetBitmapContrast_ends (Bitmap : list FColor.t) :
  Forall (fun p => FColor.wf p = true) Bitmap ->
  SetBitmapContrast Bitmap (F32.of_int 0)
    = map (fun _ => FColor.make 128 128 128 255) Bitmap /\
  SetBitmapContrast Bitmap (F32.of_int 2)
    = map (fun p => FColor.make (contrast_threshold (FColor.R p))
                                (contrast_threshold (FColor.G p))
                                (contrast_threshold (FColor.B p)) 255) Bitmap.
Proof.
  intros Hwf. rewrite Forall_forall in Hwf. rewrite !SetBitmapContrast_map.
  split; apply map_ext_in; intros p Hp;
    destruct (wf_channels p (Hwf p Hp)) as [HR [HG [HB _]]];
    destruct (contrast_channel_ends _ HR) as [R0 R2];
    destruct (contrast_channel_ends _ HG) as [G0 G2];
    destruct (contrast_channel_ends _ HB) as [B0 B2].
  - rewrite R0, G0, B0. reflexivity.
  - rewrite R2, G2, B2. reflexivity.
Qed.

Lemma SetBitmapContrast_ends_witness :
  SetBitmapContrast [FColor.make 10 128 200 40] (F32.of_int 0)
    = [FColor.make 128 128 128 255] /\
  SetBitmapContrast [FColor.make 10 128 200 40] (F32.of_int 2)
    = [FColor.make 0 128 255 255].
Proof.
  apply (SetBitmapContrast_ends [FColor.make 10 128 200 40]). repeat constructor.
Defined.
